(** * Take2: the biomarker fusion, the blink counter and the typing test

    A shallow embedding of the parts of the Take2 front end that carry the
    signal-processing logic:

    - [ResultsPage]   : [calculateOverallRisk] of [frontend/src/pages/Results.tsx];
    - [BlinkTracker]  : [onResults] of the [useBlinkTracker] hook;
    - [TypingTest]    : the accuracy computation and the WebSocket [end] sends
                        of the typing test component;
    - [Normalizer]    : the blink risk formula and the confidence-weighted
                        mean, as the documentation words them;
    - [TypingSession] : the message handler, the key handlers, the timer and
                        metrics effects and the word colours of the typing
                        test, and the component under its events;
    - [ResultsView]   : the colours and the recommendations of the results
                        page;
    - [BlinkFrames]   : raw frames and the eye geometry of the blink tracker;
    - [VoiceRecorder] : the recording clock of the voice test.

    JavaScript numbers are modelled as exact rationals ([Q]); every score,
    threshold and ratio of the program is a finite decimal or a quotient of
    small integers.  Rounding of binary64 arithmetic, [NaN] and the
    infinities are outside this model.  Equality of numbers is [Qeq]. *)

From Stdlib Require Import QArith Qminmax Qround ZArith Lia Lqa.
From Stdlib Require Import List String Ascii Bool Permutation.
From Stdlib Require Import Sorted.
Import ListNotations.

Local Open Scope Q_scope.

(** ** JavaScript helpers *)

Module JS.

(** [a < b] on numbers, as a boolean. *)
Definition lt (a b : Q) : bool := if Qlt_le_dec a b then true else false.

(** [Math.round]: the nearest integer, halves going up. *)
Definition Math_round (x : Q) : Q := inject_Z (Qfloor (x + (1 # 2))).

(** [Math.max] and [Math.min] on two numbers. *)
Definition Math_max (a b : Q) : Q := Qmax a b.
Definition Math_min (a b : Q) : Q := Qmin a b.

(** [arr.reduce((a, b) => a + b, 0)]. *)
Definition sum (arr : list Q) : Q := fold_left Qplus arr 0.

(** [arr.length] as a number. *)
Definition length_of {A : Type} (arr : list A) : Q :=
  inject_Z (Z.of_nat (List.length arr)).

End JS.

(** ** Blink tracker (the [useBlinkTracker] hook) *)

Module BlinkTracker.

(** [interface BlinkData]. *)
Record BlinkData := {
  blinkCount : nat;
  duration : Q;
  blinkTimestamps : list Q;
  earValues : list Q;
  startTime : Q
}.

Definition EAR_THRESHOLD : Q := 25 # 100.
Definition CONSEC_FRAMES : nat := 2.

(** The two refs the frame callback mutates. *)
Record Tracker := {
  blinkDataRef : BlinkData;
  consecutiveClosedFramesRef : nat
}.

(** What Face Mesh hands to [onResults].  A face is represented by the
    average of the two eye aspect ratios its landmarks give
    ([calculateEAR] needs [Math.sqrt], which has no rational model). *)
Record FaceMeshResults := {
  multiFaceLandmarks : option (list Q)
}.

(** The refs as [startTracking] resets them at time [now]. *)
Definition startTracking (now : Q) : Tracker :=
  {| blinkDataRef :=
       {| blinkCount := 0; duration := 0; blinkTimestamps := [];
          earValues := []; startTime := now |};
     consecutiveClosedFramesRef := 0 |}.

Definition pushEar (avgEAR : Q) (d : BlinkData) : BlinkData :=
  {| blinkCount := blinkCount d; duration := duration d;
     blinkTimestamps := blinkTimestamps d;
     earValues := earValues d ++ [avgEAR];
     startTime := startTime d |}.

Definition recordBlink (now : Q) (d : BlinkData) : BlinkData :=
  {| blinkCount := S (blinkCount d); duration := duration d;
     blinkTimestamps := blinkTimestamps d ++ [now];
     earValues := earValues d;
     startTime := startTime d |}.

(** [onResults]; [now] is the reading of [performance.now() / 1000] that
    the callback would take. *)
Definition onResults (isActive : bool) (results : FaceMeshResults)
    (now : Q) (tr : Tracker) : Tracker :=
  if negb isActive then tr
  else
    match multiFaceLandmarks results with
    | None => tr
    | Some [] => tr
    | Some (avgEAR :: _) =>
        let data := pushEar avgEAR (blinkDataRef tr) in
        if JS.lt avgEAR EAR_THRESHOLD then
          {| blinkDataRef := data;
             consecutiveClosedFramesRef := S (consecutiveClosedFramesRef tr) |}
        else
          let data :=
            if (CONSEC_FRAMES <=? consecutiveClosedFramesRef tr)%nat
            then recordBlink now data
            else data in
          {| blinkDataRef := data; consecutiveClosedFramesRef := 0 |}
    end.

(** One processed frame: a detected face with its average EAR, and the
    clock reading at that frame. *)
Definition Sample : Type := (Q * Q)%type.

Definition step (tr : Tracker) (s : Sample) : Tracker :=
  onResults true {| multiFaceLandmarks := Some [fst s] |} (snd s) tr.

(** The tracker after a stream of processed frames. *)
Definition process (tr : Tracker) (samples : list Sample) : Tracker :=
  fold_left step samples tr.

(** Whether handling a frame appended a blink event. *)
Definition emitted (before after : Tracker) : bool :=
  (blinkCount (blinkDataRef after) =? S (blinkCount (blinkDataRef before)))%nat.

(** The length of the run of samples below the threshold at the head of
    a list. *)
Fixpoint leadingClosed (l : list Sample) : nat :=
  match l with
  | [] => O
  | s :: l' => if JS.lt (fst s) EAR_THRESHOLD then S (leadingClosed l') else O
  end.

(** The number of consecutive samples below the threshold that
    immediately precede the end of [samples]: the closing run the
    documentation speaks of. *)
Definition closedRun (samples : list Sample) : nat :=
  leadingClosed (rev samples).

End BlinkTracker.

(** ** Results page ([frontend/src/pages/Results.tsx]) *)

Module ResultsPage.

(** [interface TypingResults]; [features] is an opaque blob and is left
    out. *)
Record TypingResults := {
  typing_session_id : string;
  score_0to1 : option Q;
  band : option string
}.

(** The annotator's answer once its JSON is parsed. *)
Record RiskAssessment := {
  overall_risk_score : option Q;
  confidence : option Q;
  risk_category : option string
}.

Record VoiceAnalysis := {
  risk_assessment : option RiskAssessment
}.

(** [llm_analysis.raw_response] is a string (possibly wrapped in a
    markdown code fence) or an object.  The regular expression and
    [JSON.parse] are abstracted by their outcome: the parse throws, or it
    yields an object. *)
Inductive RawResponse :=
| Unparsable
| ParsesTo (parsed : VoiceAnalysis).

Record LlmAnalysis := {
  raw_response : option RawResponse
}.

(** [interface VoiceResults]; [acoustic_features] is left out. *)
Record VoiceResults := {
  voice_session_id : string;
  llm_analysis : option LlmAnalysis
}.

(** The two pieces of component state that [calculateOverallRisk] sets. *)
Record State := {
  overallRisk : Q;
  riskCategory : string
}.

(** [useState<number>(0)] and [useState<string>("unknown")]. *)
Definition initialState : State :=
  {| overallRisk := 0; riskCategory := "unknown" |}.

(** [typing?.score_0to1], [undefined] being [None]. *)
Definition typingScore (typing : option TypingResults) : option Q :=
  match typing with
  | Some t => score_0to1 t
  | None => None
  end.

(** [voice?.llm_analysis?.raw_response], a falsy value being [None]. *)
Definition voiceRawResponse (voice : option VoiceResults) : option RawResponse :=
  match voice with
  | Some v =>
      match llm_analysis v with
      | Some a => raw_response a
      | None => None
      end
  | None => None
  end.

(** [parsed?.risk_assessment?.overall_risk_score]. *)
Definition parsedRiskScore (parsed : VoiceAnalysis) : option Q :=
  match risk_assessment parsed with
  | Some ra => overall_risk_score ra
  | None => None
  end.

(** Lines 72-101: the [risks] array, typing first, then voice. *)
Definition collectRisks (typing : option TypingResults)
    (voice : option VoiceResults) : list Q :=
  let risks : list Q := [] in
  let risks :=
    match typingScore typing with
    | Some s => risks ++ [s]
    | None => risks
    end in
  match voiceRawResponse voice with
  | Some (ParsesTo parsed) =>
      match parsedRiskScore parsed with
      | Some s => risks ++ [s]
      | None => risks
      end
  | Some Unparsable => risks   (* the [catch] branch only logs *)
  | None => risks
  end.

(** Lines 107-115: the chain of comparisons that picks the category. *)
Definition categoryOf (avgRisk : Q) : string :=
  if JS.lt avgRisk (3 # 10) then "low"
  else if JS.lt avgRisk (5 # 10) then "moderate"
  else if JS.lt avgRisk (7 # 10) then "elevated"
  else "high".

(** Lines 103-116: average the collected risks and set both pieces of
    state; with no risk collected nothing is set. *)
Definition fuseRisks (risks : list Q) (st : State) : State :=
  match risks with
  | [] => st
  | _ :: _ =>
      let avgRisk := JS.sum risks / JS.length_of risks in
      {| overallRisk := avgRisk; riskCategory := categoryOf avgRisk |}
  end.

Definition calculateOverallRisk (typing : option TypingResults)
    (voice : option VoiceResults) (st : State) : State :=
  fuseRisks (collectRisks typing voice) st.

(** The keys of [sessionStorage] that the pages write, each already
    parsed.  [blinkAnalysisVoice] is stored by the voice test. *)
Record SessionStorage := {
  typingAnalysis : option TypingResults;
  voiceAnalysis : option VoiceResults;
  blinkAnalysisTyping : option BlinkTracker.BlinkData;
  blinkAnalysisVoice : option BlinkTracker.BlinkData
}.

(** The mount effect (lines 28-69) as far as the risk goes: it reads
    [typingAnalysis] and [voiceAnalysis] and calls
    [calculateOverallRisk]. *)
Definition onMount (storage : SessionStorage) : State :=
  calculateOverallRisk (typingAnalysis storage) (voiceAnalysis storage)
    initialState.

End ResultsPage.

(** ** Typing test (the [TypingTest] component) *)

Module TypingTest.

Definition SAMPLE_TEXT : string :=
  "The early morning sun cast long shadows across the quiet street as people began their daily routines. Coffee shops opened their doors, releasing the rich aroma of freshly brewed espresso into the crisp air. Commuters hurried past, their footsteps echoing on the pavement while they checked their phones and sipped their drinks. In the park, joggers followed their familiar paths, weaving between dog walkers and early cyclists. The city was waking up, transforming from its peaceful nighttime slumber into the bustling hub of activity it would remain throughout the day. Each person moved with purpose, contributing to the complex choreography of urban life that played out every morning in cities around the world.".

(** *** Strings *)

(** [s.split(sep)] for a one-character separator; the empty string
    splits into one empty piece. *)
Fixpoint split (sep : ascii) (s : string) : list string :=
  match s with
  | EmptyString => [EmptyString]
  | String c rest =>
      match split sep rest with
      | [] => [EmptyString]
      | w :: ws =>
          if Ascii.eqb c sep then EmptyString :: w :: ws
          else String c w :: ws
      end
  end.

(** White space and line terminators among the code units below 256. *)
Definition isWhiteSpace (c : ascii) : bool :=
  let n := nat_of_ascii c in
  ((9 <=? n) && (n <=? 13) || (n =? 32) || (n =? 160))%nat.

Fixpoint trimStart (s : string) : string :=
  match s with
  | EmptyString => EmptyString
  | String c rest => if isWhiteSpace c then trimStart rest else s
  end.

Fixpoint trimEnd (s : string) : string :=
  match s with
  | EmptyString => EmptyString
  | String c rest =>
      match trimEnd rest with
      | EmptyString => if isWhiteSpace c then EmptyString else String c EmptyString
      | rest' => String c rest'
      end
  end.

(** [s.trim()]. *)
Definition trim (s : string) : string := trimEnd (trimStart s).

(** [a === b] for the results of two index accesses ([undefined] being
    [None]). *)
Definition strictEq (a b : option ascii) : bool :=
  match a, b with
  | Some x, Some y => Ascii.eqb x y
  | None, None => true
  | _, _ => false
  end.

(** A string is truthy when it is not empty. *)
Definition truthy (s : string) : bool :=
  match s with
  | EmptyString => false
  | String _ _ => true
  end.

(** *** Accuracy (lines 116-133) *)

Definition words : list string := split " " SAMPLE_TEXT.

Definition typedWords (input : string) : list string := split " " (trim input).

(** The inner loop: the indices [j] below [typedWord.length] with
    [typedWord[j] === word[j]]. *)
Definition matchingIndices (typedWord word : string) : list nat :=
  filter (fun j => strictEq (String.get j typedWord) (String.get j word))
         (seq 0 (String.length typedWord)).

Record Counters := {
  correctChars : nat;
  totalChars : nat
}.

(** The body of the outer loop at index [i]; [reference] is the array
    that [words[i]] reads. *)
Definition countWord (reference : list string) (i : nat) (typedWord : string)
    (c : Counters) : Counters :=
  match nth_error reference i with
  | Some word =>
      if truthy word then
        {| correctChars :=
             correctChars c + List.length (matchingIndices typedWord word);
           totalChars := totalChars c + String.length word |}
      else c
  | None => c
  end.

(** The outer loop from index [i] on. *)
Fixpoint countFrom (reference : list string) (i : nat) (typed : list string)
    (c : Counters) : Counters :=
  match typed with
  | [] => c
  | typedWord :: rest =>
      countFrom reference (S i) rest (countWord reference i typedWord c)
  end.

Definition countChars (reference typed : list string) : Counters :=
  countFrom reference 0 typed {| correctChars := 0; totalChars := 0 |}.

Definition ratio (c : Counters) : Q :=
  inject_Z (Z.of_nat (correctChars c)) / inject_Z (Z.of_nat (totalChars c)).

(** The accuracy state after the metrics effect ran on [typed], given
    its value [accuracy] before. *)
Definition updateAccuracy (reference typed : list string) (accuracy : Q) : Q :=
  let c := countChars reference typed in
  if (0 <? totalChars c)%nat then JS.Math_round (ratio c * 100)
  else accuracy.

(** [useState(100)]. *)
Definition initialAccuracy : Q := 100.

(** The effect of the component itself: the fixed sample text and the
    current content of the text area. *)
Definition metricsEffect (input : string) (accuracy : Q) : Q :=
  updateAccuracy words (typedWords input) accuracy.

(** *** The keystroke channel *)

Inductive ReadyState := CONNECTING | OPEN | CLOSING | CLOSED.

Inductive Message :=
| EndSignal
| Key (event_type : string) (key : string) (timestamp : Q).

(** A WebSocket as the client sees it: its ready state and the messages
    handed to the network so far. *)
Record WebSocket := {
  readyState : ReadyState;
  sent : list Message
}.

Inductive Exception := InvalidStateError.

Definition isOpen (ws : WebSocket) : bool :=
  match readyState ws with
  | OPEN => true
  | _ => false
  end.

(** [ws.send(data)]: throws while connecting, transmits when open, and
    discards the data once the socket is closing or closed. *)
Definition send (m : Message) (ws : WebSocket) : Exception + WebSocket :=
  match readyState ws with
  | CONNECTING => inl InvalidStateError
  | OPEN => inr {| readyState := OPEN; sent := sent ws ++ [m] |}
  | CLOSING => inr ws
  | CLOSED => inr ws
  end.

(** [ws.close()]. *)
Definition close (ws : WebSocket) : WebSocket :=
  match readyState ws with
  | CLOSING => ws
  | CLOSED => ws
  | _ => {| readyState := CLOSING; sent := sent ws |}
  end.

(** The cleanup of the connection effect (lines 73-78), run on unmount. *)
Definition cleanup (ws : WebSocket) : Exception + WebSocket :=
  match (if isOpen ws then send EndSignal ws else inr ws) with
  | inl e => inl e
  | inr ws' => inr (close ws')
  end.

(** The state the timer touches. *)
Record Timer := {
  timeLeft : Z;
  isActive : bool;
  isComplete : bool;
  wsRef : option WebSocket
}.

(** The interval callback (lines 86-97). *)
Definition tick (st : Timer) : Exception + Timer :=
  if (timeLeft st <=? 1)%Z then
    match wsRef st with
    | Some ws =>
        match (if isOpen ws then send EndSignal ws else inr ws) with
        | inl e => inl e
        | inr ws' =>
            inr {| timeLeft := 0; isActive := false; isComplete := true;
                   wsRef := Some ws' |}
        end
    | None =>
        inr {| timeLeft := 0; isActive := false; isComplete := true;
               wsRef := None |}
    end
  else
    inr {| timeLeft := timeLeft st - 1; isActive := isActive st;
           isComplete := isComplete st; wsRef := wsRef st |}.

(** The messages a timer state has handed to the network. *)
Definition outbox (st : Timer) : list Message :=
  match wsRef st with
  | Some ws => sent ws
  | None => []
  end.

(** How many [end] messages a list holds. *)
Definition countEnd (l : list Message) : nat :=
  List.length (filter (fun m => match m with EndSignal => true | _ => false end) l).

End TypingTest.

(** ** Score normalisation and the weighted mean, as documented *)

Module Normalizer.

(** Modelled from the spec: the function that turns a blink rate into a
    risk lives in the backend, which is not among the sources.  The
    formula is the one of section 4.4, which
    [frontend/BLINK_DETECTION_ALGORITHM.md] (Risk Calculation) writes
    [max(0.0, min(1.0, (20 - blinkRate) / 15))]. *)
Definition blinkRisk (blinkRate : Q) : Q :=
  JS.Math_max 0 (JS.Math_min 1 ((20 - blinkRate) / 15)).

(** Modelled from the spec: [blinkRatePerMinute = blinkCount /
    durationSeconds * 60] (section 4.1), computed by the backend. *)
Definition blinkRatePerMinute (blinkCount : nat) (durationSeconds : Q) : Q :=
  inject_Z (Z.of_nat blinkCount) / durationSeconds * 60.

(** Clamping to the unit interval, by cases. *)
Definition clamp01 (x : Q) : Q :=
  if JS.lt x 0 then 0 else if JS.lt 1 x then 1 else x.

Inductive Modality := typing | voice | blink.

(** [ModalityScore] of the data model. *)
Record ModalityScore := {
  modality : Modality;
  value : Q;
  weight : Q   (* the score's confidence *)
}.

Definition sumOf (f : ModalityScore -> Q) (scores : list ModalityScore) : Q :=
  fold_right (fun s acc => f s + acc) 0 scores.

(** The confidence-weighted mean of section 4.5; [None] is the spec's
    [unknown]. *)
Definition weightedMean (scores : list ModalityScore) : option Q :=
  let total := sumOf weight scores in
  if Qeq_bool total 0 then None
  else Some (sumOf (fun s => value s * weight s) scores / total).

(** The scores that the two arguments of [calculateOverallRisk] carry:
    the typing score with confidence 1.0, the voice score with the
    confidence the annotator reported (1.0 when it reported none). *)
Definition reportedScores (typingData : option ResultsPage.TypingResults)
    (voiceData : option ResultsPage.VoiceResults) : list ModalityScore :=
  match ResultsPage.typingScore typingData with
  | Some s => [{| modality := typing; value := s; weight := 1 |}]
  | None => []
  end ++
  match ResultsPage.voiceRawResponse voiceData with
  | Some (ResultsPage.ParsesTo parsed) =>
      match ResultsPage.risk_assessment parsed with
      | Some ra =>
          match ResultsPage.overall_risk_score ra with
          | Some s =>
              [{| modality := voice; value := s;
                  weight := match ResultsPage.confidence ra with
                            | Some c => c
                            | None => 1
                            end |}]
          | None => []
          end
      | None => []
      end
  | _ => []
  end.

(** The same scores with every confidence replaced by 1. *)
Definition unitWeights (scores : list ModalityScore) : list ModalityScore :=
  map (fun s => {| modality := modality s; value := value s; weight := 1 |})
      scores.

End Normalizer.

(** ** Sample inputs *)

Module Samples.

Import ResultsPage.

(** A stored typing analysis whose final message carried [score]. *)
Definition typingWith (score : Q) : option TypingResults :=
  Some {| typing_session_id := "typing-session";
          score_0to1 := Some score;
          band := None |}.

(** A stored voice analysis whose annotator answer parses to the given
    risk score and confidence. *)
Definition voiceWith (score conf : Q) : option VoiceResults :=
  Some {| voice_session_id := "voice-session";
          llm_analysis :=
            Some {| raw_response :=
                      Some (ParsesTo
                        {| risk_assessment :=
                             Some {| overall_risk_score := Some score;
                                     confidence := Some conf;
                                     risk_category := None |} |}) |} |}.

(** A blink summary of [count] blinks over [seconds] seconds. *)
Definition blinkSession (count : nat) (seconds : Q) : BlinkTracker.BlinkData :=
  {| BlinkTracker.blinkCount := count;
     BlinkTracker.duration := seconds;
     BlinkTracker.blinkTimestamps := [];
     BlinkTracker.earValues := [];
     BlinkTracker.startTime := 0 |}.

(** The session of the end-to-end scenario: typing 0.1, voice 0.2 at
    confidence 1.0, and 20 blinks over 60 seconds recorded during the
    voice test. *)
Definition threeModalities : SessionStorage :=
  {| typingAnalysis := typingWith (1 # 10);
     voiceAnalysis := voiceWith (2 # 10) 1;
     blinkAnalysisTyping := None;
     blinkAnalysisVoice := Some (blinkSession 20 60) |}.

(** The three scores of that session as the normaliser would report
    them. *)
Definition threeScores : list Normalizer.ModalityScore :=
  [ {| Normalizer.modality := Normalizer.typing;
       Normalizer.value := 1 # 10; Normalizer.weight := 1 |};
    {| Normalizer.modality := Normalizer.voice;
       Normalizer.value := 2 # 10; Normalizer.weight := 1 |};
    {| Normalizer.modality := Normalizer.blink;
       Normalizer.value :=
         Normalizer.blinkRisk (Normalizer.blinkRatePerMinute 20 60);
       Normalizer.weight := 1 |} ].

(** A session in which only the blink tracker reported: 5 blinks over 60
    seconds, stored by the voice test, and neither a typing nor a voice
    analysis. *)
Definition blinkOnly : SessionStorage :=
  {| typingAnalysis := None;
     voiceAnalysis := None;
     blinkAnalysisTyping := None;
     blinkAnalysisVoice := Some (blinkSession 5 60) |}.

(** The one score of that session as the normaliser would report it. *)
Definition blinkOnlyScores : list Normalizer.ModalityScore :=
  [ {| Normalizer.modality := Normalizer.blink;
       Normalizer.value :=
         Normalizer.blinkRisk (Normalizer.blinkRatePerMinute 5 60);
       Normalizer.weight := 1 |} ].

End Samples.

(** ** Typing test: server messages, key handlers, metrics and events *)

Module TypingSession.

Import TypingTest.

(** The fields of a server message that [ws.onmessage] reads, once
    [JSON.parse] has run; [session_id] is the empty string when the
    message carries none. *)
Record ServerMessage := {
  msgType : string;
  session_id : string;
  score : option Q;
  score_0to1 : option Q;
  band : option string
}.

(** What the message handler writes: the session id ref, the two pieces of
    analysis state, and [sessionStorage]. *)
Record Analysis := {
  sessionIdRef : string;
  analysisScore : option Q;
  analysisBand : string;
  storage : ResultsPage.SessionStorage
}.

(** [useRef("")], [useState(null)], [useState("")] over a given storage. *)
Definition initialAnalysis (s : ResultsPage.SessionStorage) : Analysis :=
  {| sessionIdRef := ""; analysisScore := None; analysisBand := "";
     storage := s |}.

(** [if (data.score !== undefined) setAnalysisScore(data.score)]. *)
Definition setScoreIfDefined (s : option Q) (st : Analysis) : Analysis :=
  match s with
  | Some v =>
      {| sessionIdRef := sessionIdRef st; analysisScore := Some v;
         analysisBand := analysisBand st; storage := storage st |}
  | None => st
  end.

(** [if (data.band) setAnalysisBand(data.band)]: an absent or empty band
    is falsy. *)
Definition setBandIfTruthy (b : option string) (st : Analysis) : Analysis :=
  match b with
  | Some v =>
      if truthy v then
        {| sessionIdRef := sessionIdRef st; analysisScore := analysisScore st;
           analysisBand := v; storage := storage st |}
      else st
  | None => st
  end.

(** What the results page reads back from the stored final message. *)
Definition storedAs (data : ServerMessage) : ResultsPage.TypingResults :=
  {| ResultsPage.typing_session_id := session_id data;
     ResultsPage.score_0to1 := score_0to1 data;
     ResultsPage.band := band data |}.

(** [sessionStorage.setItem('typingAnalysis', JSON.stringify(data))]. *)
Definition storeTyping (data : ServerMessage) (st : Analysis) : Analysis :=
  {| sessionIdRef := sessionIdRef st; analysisScore := analysisScore st;
     analysisBand := analysisBand st;
     storage :=
       {| ResultsPage.typingAnalysis := Some (storedAs data);
          ResultsPage.voiceAnalysis := ResultsPage.voiceAnalysis (storage st);
          ResultsPage.blinkAnalysisTyping :=
            ResultsPage.blinkAnalysisTyping (storage st);
          ResultsPage.blinkAnalysisVoice :=
            ResultsPage.blinkAnalysisVoice (storage st) |} |}.

(** [ws.onmessage] (lines 35-61). *)
Definition onmessage (data : ServerMessage) (st : Analysis) : Analysis :=
  if String.eqb (msgType data) "connected" then
    {| sessionIdRef := session_id data; analysisScore := analysisScore st;
       analysisBand := analysisBand st; storage := storage st |}
  else if String.eqb (msgType data) "update" then
    setBandIfTruthy (band data) (setScoreIfDefined (score data) st)
  else if String.eqb (msgType data) "final" then
    storeTyping data
      (setBandIfTruthy (band data) (setScoreIfDefined (score_0to1 data) st))
  else st.

(** The messages of a session, handled in arrival order. *)
Definition receive (msgs : list ServerMessage) (st : Analysis) : Analysis :=
  fold_left (fun s m => onmessage m s) msgs st.

Definition isFinal (m : ServerMessage) : bool := String.eqb (msgType m) "final".

(** The last element of a list that satisfies a test. *)
Definition lastWhere {A : Type} (f : A -> bool) (l : list A) : option A :=
  fold_left (fun acc x => if f x then Some x else acc) l None.

(** The score a message makes the component show, if any. *)
Definition shownScore (m : ServerMessage) : option Q :=
  if String.eqb (msgType m) "update" then score m
  else if String.eqb (msgType m) "final" then score_0to1 m
  else None.

(** *** Key handlers (lines 136-168) *)

Definition withSocket (ws : WebSocket) (st : Timer) : Timer :=
  {| timeLeft := timeLeft st; isActive := isActive st;
     isComplete := isComplete st; wsRef := Some ws |}.

(** The body the two key handlers share: nothing once the test is
    complete, else a guarded send of the event; [now] is
    [performance.now()], in milliseconds.  ([lastKeypressRef] is written
    and never read; it is left out.) *)
Definition sendKey (event_type key : string) (now : Q) (st : Timer)
    : Exception + Timer :=
  if isComplete st then inr st
  else
    match wsRef st with
    | Some ws =>
        if isOpen ws then
          match send (Key event_type key (now / 1000)) ws with
          | inl e => inl e
          | inr ws' => inr (withSocket ws' st)
          end
        else inr st
    | None => inr st
    end.

Definition handleKeyDown (key : string) (now : Q) (st : Timer)
    : Exception + Timer :=
  sendKey "press" key now st.

Definition handleKeyUp (key : string) (now : Q) (st : Timer)
    : Exception + Timer :=
  sendKey "release" key now st.

(** *** Timer effect (lines 82-101) *)

(** One second passes: the interval exists only while [isActive] holds
    and [timeLeft] is positive, and then its callback runs. *)
Definition second (st : Timer) : Exception + Timer :=
  if isActive st && (0 <? timeLeft st)%Z then tick st else inr st.

(** What the expiry of the timer hands to the network. *)
Definition endIfOpen (st : Timer) : list Message :=
  match wsRef st with
  | Some ws => if isOpen ws then [EndSignal] else []
  | None => []
  end.

Fixpoint seconds (n : nat) (st : Timer) : Exception + Timer :=
  match n with
  | O => inr st
  | S n' =>
      match second st with
      | inl e => inl e
      | inr st' => seconds n' st'
      end
  end.

(** *** Metrics effect (lines 104-134) *)

(** [if (input.length > 0 && !isActive && !isComplete) setIsActive(true)]. *)
Definition activate (input : string) (st : Timer) : Timer :=
  if (0 <? String.length input)%nat && negb (isActive st)
     && negb (isComplete st)
  then {| timeLeft := timeLeft st; isActive := true;
          isComplete := isComplete st; wsRef := wsRef st |}
  else st.

(** The words-per-minute part of the effect. *)
Definition updateWpm (input : string) (time : Z) (wpm : Q) : Q :=
  let timeElapsed := (30 - inject_Z time) / 60 in
  if JS.lt 0 timeElapsed then
    let wordsTyped := JS.length_of (typedWords input) in
    JS.Math_round (wordsTyped / timeElapsed)
  else wpm.

(** *** The word colours (lines 174-185) *)

(** [a === b] for two array reads that yield strings or [undefined]. *)
Definition sameWord (a b : option string) : bool :=
  match a, b with
  | Some x, Some y => String.eqb x y
  | None, None => true
  | _, _ => false
  end.

Definition getWordClass (input : string) (index : nat) : string :=
  let typed := typedWords input in
  if (index <? List.length typed)%nat then
    if sameWord (nth_error typed index) (nth_error words index)
    then "text-primary"
    else "text-destructive"
  else if (index =? List.length typed)%nat then "text-foreground underline"
  else "text-muted-foreground".

(** *** The component under its events *)

Record Component := {
  timer : Timer;
  input : string;
  wpm : Q;
  accuracy : Q
}.

(** The metrics effect as a whole, run after a render. *)
Definition metrics (c : Component) : Component :=
  {| timer := activate (input c) (timer c);
     input := input c;
     wpm := updateWpm (input c) (timeLeft (timer c)) (wpm c);
     accuracy := metricsEffect (input c) (accuracy c) |}.

(** The component once it has mounted over a socket: the initial state,
    on which the metrics effect has run. *)
Definition mounted (ws : WebSocket) : Component :=
  metrics
    {| timer := {| timeLeft := 30; isActive := false; isComplete := false;
                   wsRef := Some ws |};
       input := ""; wpm := 0; accuracy := initialAccuracy |}.

Inductive Event :=
| Change (value : string)               (* the text area's [onChange] *)
| KeyDown (key : string) (now : Q)
| KeyUp (key : string) (now : Q)
| Second                                (* a second of the interval *)
| Network (rs : ReadyState).            (* the browser moves the socket *)

Definition withTimer (t : Timer) (c : Component) : Component :=
  {| timer := t; input := input c; wpm := wpm c; accuracy := accuracy c |}.

Definition dispatch (e : Event) (c : Component) : Exception + Component :=
  match e with
  | Change value =>
      (* [!isComplete && setInput(e.target.value)] *)
      if isComplete (timer c) then inr c
      else inr (metrics {| timer := timer c; input := value;
                           wpm := wpm c; accuracy := accuracy c |})
  | KeyDown key now =>
      match handleKeyDown key now (timer c) with
      | inl x => inl x
      | inr t => inr (withTimer t c)
      end
  | KeyUp key now =>
      match handleKeyUp key now (timer c) with
      | inl x => inl x
      | inr t => inr (withTimer t c)
      end
  | Second =>
      (* without an interval nothing changes and no effect runs *)
      if isActive (timer c) && (0 <? timeLeft (timer c))%Z then
        match second (timer c) with
        | inl x => inl x
        | inr t => inr (metrics (withTimer t c))
        end
      else inr c
  | Network rs =>
      inr (withTimer
             {| timeLeft := timeLeft (timer c); isActive := isActive (timer c);
                isComplete := isComplete (timer c);
                wsRef := match wsRef (timer c) with
                         | Some ws => Some {| readyState := rs; sent := sent ws |}
                         | None => None
                         end |} c)
  end.

Fixpoint run (events : list Event) (c : Component) : Exception + Component :=
  match events with
  | [] => inr c
  | e :: rest =>
      match dispatch e c with
      | inl x => inl x
      | inr c' => run rest c'
      end
  end.

Definition isKey (m : Message) : bool :=
  match m with
  | Key _ _ _ => true
  | EndSignal => false
  end.

(** The shape of the outbox that every event keeps: the messages sent
    before the mount, then key events, then at most one [end], which is
    there only once the test is complete; a complete test is not active. *)
Definition keysThenEnd (base : list Message) (t : Timer) : Prop :=
  (exists keys tail : list Message,
     outbox t = base ++ keys ++ tail /\
     Forall (fun m => isKey m = true) keys /\
     (tail = [] \/ (tail = [EndSignal] /\ isComplete t = true))) /\
  (isComplete t = true -> isActive t = false).

End TypingSession.

(** ** Results page: the colours of a category (lines 119-137) *)

Module ResultsView.

Local Open Scope string_scope.

Definition getRiskColor (category : string) : string :=
  if String.eqb category "low" then "text-green-500"
  else if String.eqb category "moderate" then "text-yellow-500"
  else if String.eqb category "elevated" then "text-orange-500"
  else if String.eqb category "high" then "text-red-500"
  else "text-muted-foreground".

Definition getRiskBgColor (category : string) : string :=
  if String.eqb category "low" then "bg-green-500/10"
  else if String.eqb category "moderate" then "bg-yellow-500/10"
  else if String.eqb category "elevated" then "bg-orange-500/10"
  else if String.eqb category "high" then "bg-red-500/10"
  else "bg-muted".

(** The items of the recommendations list for a category (lines
    314-358). *)
Definition recommendations (category : string) : list string :=
  (if String.eqb category "low" then
     [ "Results appear within normal range. Continue regular health monitoring.";
       "Consider establishing a baseline by repeating assessments periodically." ]
   else [])
  ++
  (if String.eqb category "moderate" || String.eqb category "elevated" then
     [ "Some indicators suggest monitoring may be beneficial.";
       "Repeat assessments over time to track any changes.";
       "Consider discussing results with your healthcare provider." ]
   else [])
  ++
  (if String.eqb category "high" then
     [ "Consider consultation with a neurologist for professional evaluation.";
       "Monitor symptoms over time with repeated assessments.";
       "Keep a log of any motor or cognitive changes you notice." ]
   else []).

(** The recommendations card (line 310): rendered when a typing result is
    stored or the voice answer parsed, with the items of the category the
    fusion set; [None] when the card is not rendered. *)
Definition recommendationCard (typing : option ResultsPage.TypingResults)
    (voice : option ResultsPage.VoiceResults) : option (list string) :=
  let parsedVoiceAnalysis :=
    match ResultsPage.voiceRawResponse voice with
    | Some (ResultsPage.ParsesTo parsed) => Some parsed
    | _ => None
    end in
  match typing, parsedVoiceAnalysis with
  | None, None => None
  | _, _ =>
      Some (recommendations
              (ResultsPage.riskCategory
                 (ResultsPage.calculateOverallRisk typing voice
                    ResultsPage.initialState)))
  end.

End ResultsView.

(** ** Blink tracker: raw frames and the eye geometry *)

Module BlinkFrames.

Import BlinkTracker.

(** A frame as the camera loop delivers it: what Face Mesh found, and the
    clock reading. *)
Definition Frame : Type := (FaceMeshResults * Q)%type.

Definition feed (tr : Tracker) (f : Frame) : Tracker :=
  onResults true (fst f) (snd f) tr.

Definition feedAll (tr : Tracker) (frames : list Frame) : Tracker :=
  fold_left feed frames tr.

(** The sample a frame contributes: the first face, if there is one. *)
Definition sampleOf (f : Frame) : option Sample :=
  match multiFaceLandmarks (fst f) with
  | Some (avgEAR :: _) => Some (avgEAR, snd f)
  | _ => None
  end.

Fixpoint samplesOf (frames : list Frame) : list Sample :=
  match frames with
  | [] => []
  | f :: rest =>
      match sampleOf f with
      | Some s => s :: samplesOf rest
      | None => samplesOf rest
      end
  end.

Record Point := { x : Q; y : Q }.

Definition LEFT_EYE : list nat := [362; 385; 387; 263; 373; 380]%nat.
Definition RIGHT_EYE : list nat := [33; 160; 158; 133; 153; 144]%nat.

(** [eyeIndices.map(idx => landmarks[idx])]; a missing landmark is
    [undefined]. *)
Definition getEyeLandmarks (landmarks : list Point) (eyeIndices : list nat)
    : list (option Point) :=
  map (fun idx => nth_error landmarks idx) eyeIndices.

Inductive TypeError := ReadOfUndefined.

Section Geometry.

(** [Math.sqrt] has no rational model and is taken as given. *)
Variable Math_sqrt : Q -> Q.

(** [euclideanDistance]: reading [.x] of [undefined] throws. *)
Definition euclideanDistance (point1 point2 : option Point) : TypeError + Q :=
  match point1, point2 with
  | Some p1, Some p2 =>
      let dx := x p1 - x p2 in
      let dy := y p1 - y p2 in
      inr (Math_sqrt (dx * dx + dy * dy))
  | _, _ => inl ReadOfUndefined
  end.

(** [eyeLandmarks[i]]: an index past the end reads [undefined]. *)
Definition at_ (eye : list (option Point)) (i : nat) : option Point :=
  match nth_error eye i with
  | Some p => p
  | None => None
  end.

(** [calculateEAR]: 1.0 for fewer than six landmarks and whenever the
    body throws.  A zero eye width (a division by zero in the source) is
    outside the rational model. *)
Definition calculateEAR (eyeLandmarks : list (option Point)) : Q :=
  if (List.length eyeLandmarks <? 6)%nat then 1
  else
    match euclideanDistance (at_ eyeLandmarks 1) (at_ eyeLandmarks 5) with
    | inl _ => 1
    | inr A =>
        match euclideanDistance (at_ eyeLandmarks 2) (at_ eyeLandmarks 4) with
        | inl _ => 1
        | inr B =>
            match euclideanDistance (at_ eyeLandmarks 0) (at_ eyeLandmarks 3) with
            | inl _ => 1
            | inr C => (A + B) / (2 * C)
            end
        end
    end.

(** The average of the two eyes, as [onResults] computes it from the
    landmarks of a face. *)
Definition averageEAR (faceLandmarks : list Point) : Q :=
  let leftEAR := calculateEAR (getEyeLandmarks faceLandmarks LEFT_EYE) in
  let rightEAR := calculateEAR (getEyeLandmarks faceLandmarks RIGHT_EYE) in
  (leftEAR + rightEAR) / 2.

End Geometry.

End BlinkFrames.

(** ** Voice test: the recording clock ([VoiceTest.tsx], lines 41-49) *)

Module VoiceRecorder.

(** The updater of [setRecordingTime]: the new reading, and whether it
    called [stopRecording]. *)
Definition recordingTick (t : Z) : Z * bool :=
  if (5 <=? t)%Z then (5%Z, true) else ((t + 1)%Z, false).

(** The reading after [n] seconds, and whether the last of them called
    [stopRecording]. *)
Fixpoint recordingAfter (n : nat) (t : Z) : Z * bool :=
  match n with
  | O => (t, false)
  | S n' => recordingTick (fst (recordingAfter n' t))
  end.

End VoiceRecorder.

(** * Properties *)

(** ** Numbers *)

Section NumberFacts.

Lemma lt_true_iff (a b : Q) : JS.lt a b = true <-> a < b.
Proof.
  unfold JS.lt. destruct (Qlt_le_dec a b) as [H | H]; split; intro K;
    try reflexivity; try assumption; try discriminate.
  exfalso. apply (Qlt_not_le _ _ K). exact H.
Qed.

Lemma lt_false_iff (a b : Q) : JS.lt a b = false <-> b <= a.
Proof.
  unfold JS.lt. destruct (Qlt_le_dec a b) as [H | H]; split; intro K;
    try reflexivity; try assumption; try discriminate.
  exfalso. apply (Qlt_not_le _ _ H). exact K.
Qed.

Lemma lt_compat (a a' b : Q) : a == a' -> JS.lt a b = JS.lt a' b.
Proof.
  intro E. destruct (JS.lt a' b) eqn:K.
  - apply lt_true_iff. apply lt_true_iff in K. rewrite E. exact K.
  - apply lt_false_iff. apply lt_false_iff in K. rewrite E. exact K.
Qed.

Lemma fold_plus_acc (l : list Q) (a : Q) :
  fold_left Qplus l a == a + fold_left Qplus l 0.
Proof.
  revert a. induction l as [| x l IH]; intro a; simpl.
  - lra.
  - rewrite (IH (a + x)), (IH (0 + x)). lra.
Qed.

Lemma sum_cons (x : Q) (l : list Q) : JS.sum (x :: l) == x + JS.sum l.
Proof.
  unfold JS.sum. simpl. rewrite fold_plus_acc. lra.
Qed.

Lemma sum_permutation (l l' : list Q) :
  Permutation l l' -> JS.sum l == JS.sum l'.
Proof.
  induction 1 as [| x l l' _ IH | x y l | l l' l'' _ IH1 _ IH2].
  - reflexivity.
  - rewrite !sum_cons, IH. reflexivity.
  - rewrite !sum_cons. lra.
  - rewrite IH1. exact IH2.
Qed.

Lemma length_of_pos {A : Type} (x : A) (l : list A) : 0 < JS.length_of (x :: l).
Proof.
  unfold JS.length_of. change 0 with (inject_Z 0). rewrite <- Zlt_Qlt.
  simpl List.length. lia.
Qed.

Lemma length_of_cons {A : Type} (x : A) (l : list A) :
  JS.length_of (x :: l) == 1 + JS.length_of l.
Proof.
  unfold JS.length_of. simpl List.length. rewrite Nat2Z.inj_succ.
  unfold Z.succ. rewrite inject_Z_plus. change (inject_Z 1) with 1. lra.
Qed.

End NumberFacts.

(** ** The fusion on the results page *)

Section FusionFacts.

Import ResultsPage.

Lemma categoryOf_compat (x y : Q) : x == y -> categoryOf x = categoryOf y.
Proof.
  intro E. unfold categoryOf.
  rewrite (lt_compat x y _ E), (lt_compat x y (5 # 10) E),
    (lt_compat x y (7 # 10) E).
  reflexivity.
Qed.

(** C2. The category follows the thresholds 0.3, 0.5 and 0.7, each closed
    below and open above: low iff r < 0.3, moderate iff 0.3 <= r < 0.5,
    elevated iff 0.5 <= r < 0.7, high iff 0.7 <= r; exactly 0.3 is moderate
    and exactly 0.7 is high; and the category that the fusion sets is the
    one of the risk it sets. *)
Theorem category_thresholds :
  (forall r : Q,
     (categoryOf r = "low"%string <-> r < 3 # 10) /\
     (categoryOf r = "moderate"%string <-> 3 # 10 <= r /\ r < 5 # 10) /\
     (categoryOf r = "elevated"%string <-> 5 # 10 <= r /\ r < 7 # 10) /\
     (categoryOf r = "high"%string <-> 7 # 10 <= r)) /\
  categoryOf (3 # 10) = "moderate"%string /\
  categoryOf (7 # 10) = "high"%string /\
  (forall (x : Q) (risks : list Q) (st : State),
     riskCategory (fuseRisks (x :: risks) st) =
     categoryOf (overallRisk (fuseRisks (x :: risks) st))).
Proof.
  split; [| repeat split].
  intro r. unfold categoryOf.
  destruct (JS.lt r (3 # 10)) eqn:H3;
    [ apply lt_true_iff in H3 | apply lt_false_iff in H3 ];
  (destruct (JS.lt r (5 # 10)) eqn:H5;
    [ apply lt_true_iff in H5 | apply lt_false_iff in H5 ]);
  (destruct (JS.lt r (7 # 10)) eqn:H7;
    [ apply lt_true_iff in H7 | apply lt_false_iff in H7 ]);
  repeat split; intros; try discriminate; try reflexivity; try lra.
Qed.


(** The array that the function averages holds the values of the scores
    its two arguments carry, in the same order. *)
Lemma collectRisks_values (typing : option TypingResults)
    (voice : option VoiceResults) :
  collectRisks typing voice =
  map Normalizer.value (Normalizer.reportedScores typing voice).
Proof.
  unfold collectRisks, Normalizer.reportedScores.
  destruct (typingScore typing) as [s |];
    destruct (voiceRawResponse voice) as [[| parsed] |]; simpl; try reflexivity;
    unfold parsedRiskScore;
    destruct (risk_assessment parsed) as [ra |]; simpl; try reflexivity;
    destruct (overall_risk_score ra); reflexivity.
Qed.

Lemma sumOf_unit_weights (scores : list Normalizer.ModalityScore) :
  Normalizer.sumOf Normalizer.weight (Normalizer.unitWeights scores) ==
  JS.length_of scores.
Proof.
  induction scores as [| s scores IH].
  - reflexivity.
  - rewrite length_of_cons. simpl. rewrite IH. reflexivity.
Qed.

Lemma sumOf_unit_values (scores : list Normalizer.ModalityScore) :
  Normalizer.sumOf (fun s => Normalizer.value s * Normalizer.weight s)
    (Normalizer.unitWeights scores) ==
  JS.sum (map Normalizer.value scores).
Proof.
  induction scores as [| s scores IH].
  - reflexivity.
  - simpl map. rewrite sum_cons. simpl. rewrite IH. lra.
Qed.

Lemma length_of_map {A B : Type} (f : A -> B) (l : list A) :
  JS.length_of (map f l) = JS.length_of l.
Proof.
  unfold JS.length_of. rewrite length_map. reflexivity.
Qed.

(** The claim of C1 fails on the code: with a typing score of 0 and a
    voice score of 1 reported at confidence 0.5, the confidence-weighted
    mean is 1/3, and the page sets 1/2. *)
Lemma weighted_mean_counterexample :
  Normalizer.weightedMean
    (Normalizer.reportedScores (Samples.typingWith 0)
       (Samples.voiceWith 1 (1 # 2))) = Some (2 # 6) /\
  overallRisk
    (calculateOverallRisk (Samples.typingWith 0)
       (Samples.voiceWith 1 (1 # 2)) initialState) == 1 # 2 /\
  2 # 6 < 1 # 2.
Proof.
  split; [ reflexivity | split; reflexivity ].
Qed.

(** C1 (amended). Whenever typing or voice has reported a score, the risk
    that the page sets is the plain mean of the reported scores: the sum of
    the values over their number, which is the confidence-weighted mean with
    every confidence taken as 1.  The confidences themselves are not read. *)
Theorem overallRisk_plain_mean (typing : option TypingResults)
    (voice : option VoiceResults) (st : State) :
  Normalizer.reportedScores typing voice <> [] ->
  let scores := Normalizer.reportedScores typing voice in
  let risk := overallRisk (calculateOverallRisk typing voice st) in
  risk == Normalizer.sumOf Normalizer.value scores / JS.length_of scores /\
  exists m : Q,
    Normalizer.weightedMean (Normalizer.unitWeights scores) = Some m /\
    risk == m.
Proof.
  intros Hne scores risk. subst risk. unfold calculateOverallRisk.
  rewrite collectRisks_values. fold scores.
  destruct scores as [| s rest] eqn:E; [ contradiction |].
  assert (Hpos : 0 < JS.length_of (s :: rest)) by apply length_of_pos.
  assert (Hsum : JS.sum (map Normalizer.value (s :: rest)) ==
                 Normalizer.sumOf Normalizer.value (s :: rest)).
  { clear. induction (s :: rest) as [| x l IH]; [ reflexivity |].
    simpl map. rewrite sum_cons, IH. reflexivity. }
  simpl map. simpl fuseRisks. cbv beta zeta. simpl overallRisk.
  change (Normalizer.value s :: map Normalizer.value rest)
    with (map Normalizer.value (s :: rest)).
  rewrite length_of_map.
  split.
  - rewrite Hsum. reflexivity.
  - unfold Normalizer.weightedMean.
    destruct (Qeq_bool _ 0) eqn:Hz.
    + apply Qeq_bool_eq in Hz. rewrite sumOf_unit_weights in Hz. lra.
    + eexists. split; [ reflexivity |].
      rewrite sumOf_unit_values, sumOf_unit_weights. reflexivity.
Qed.

Lemma overallRisk_plain_mean_witness :
  Normalizer.reportedScores (Samples.typingWith (1 # 4))
    (Samples.voiceWith (3 # 4) (1 # 2)) <> [] /\
  overallRisk
    (calculateOverallRisk (Samples.typingWith (1 # 4))
       (Samples.voiceWith (3 # 4) (1 # 2)) initialState) == 1 # 2.
Proof.
  assert (H : Normalizer.reportedScores (Samples.typingWith (1 # 4))
                (Samples.voiceWith (3 # 4) (1 # 2)) <> []) by discriminate.
  split; [ exact H |].
  destruct (overallRisk_plain_mean (Samples.typingWith (1 # 4))
              (Samples.voiceWith (3 # 4) (1 # 2)) initialState H) as [E _].
  rewrite E. reflexivity.
Defined.


(** The claim of C5 fails on the code: a lone voice score of 0.75 reported
    at confidence 0 leaves the weighted mean undefined, and the page still
    sets the category high. *)
Lemma zero_confidence_counterexample :
  map Normalizer.weight
    (Normalizer.reportedScores None (Samples.voiceWith (3 # 4) 0)) = [0] /\
  Normalizer.weightedMean
    (Normalizer.reportedScores None (Samples.voiceWith (3 # 4) 0)) = None /\
  riskCategory
    (calculateOverallRisk None (Samples.voiceWith (3 # 4) 0) initialState) =
  "high"%string.
Proof.
  repeat split.
Qed.

Lemma categoryOf_not_unknown (r : Q) : categoryOf r <> "unknown"%string.
Proof.
  unfold categoryOf.
  destruct (JS.lt r (3 # 10)); [ discriminate |].
  destruct (JS.lt r (5 # 10)); [ discriminate |].
  destruct (JS.lt r (7 # 10)); discriminate.
Qed.

(** C5 (amended). The category stays at its initial value unknown exactly
    when neither typing nor voice has reported a score, and then the call
    changes nothing at all; a reported score is averaged and put in a band
    whatever its confidence. *)
Theorem unknown_iff_nothing_reported (typing : option TypingResults)
    (voice : option VoiceResults) :
  (riskCategory (calculateOverallRisk typing voice initialState) =
     "unknown"%string <->
   Normalizer.reportedScores typing voice = []) /\
  (Normalizer.reportedScores typing voice = [] ->
   forall st : State, calculateOverallRisk typing voice st = st).
Proof.
  unfold calculateOverallRisk. rewrite collectRisks_values.
  destruct (Normalizer.reportedScores typing voice) as [| s rest].
  - simpl. repeat split; reflexivity.
  - simpl map. simpl fuseRisks. split; [ split |]; intro H.
    + exfalso. revert H. apply categoryOf_not_unknown.
    + discriminate.
    + discriminate.
Qed.

Lemma unknown_iff_nothing_reported_witness :
  Normalizer.reportedScores None None = [] /\
  calculateOverallRisk None None initialState = initialState /\
  riskCategory (calculateOverallRisk None None initialState) = "unknown"%string.
Proof.
  assert (H : Normalizer.reportedScores None None = []) by reflexivity.
  destruct (unknown_iff_nothing_reported None None) as [[_ Hcat] Hsame].
  split; [ exact H | split ].
  - exact (Hsame H initialState).
  - exact (Hcat H).
Defined.

(** C6. On the session of the end-to-end scenario the blink risk is 0 and
    the weighted mean of the three scores is 0.1, but the page reads no
    blink data: it sets the mean of the typing and the voice score, 0.15.
    The category is low either way. *)
Theorem three_modalities_scenario :
  Normalizer.blinkRisk (Normalizer.blinkRatePerMinute 20 60) == 0 /\
  (exists m : Q,
     Normalizer.weightedMean Samples.threeScores = Some m /\ m == 1 # 10) /\
  overallRisk (onMount Samples.threeModalities) == 15 # 100 /\
  1 # 10 < overallRisk (onMount Samples.threeModalities) /\
  riskCategory (onMount Samples.threeModalities) = "low"%string.
Proof.
  split; [ reflexivity |].
  split; [ eexists; split; reflexivity |].
  split; [ reflexivity |].
  split; reflexivity.
Qed.

(** X19. When exactly one of the two arguments of [calculateOverallRisk]
    carries a score (typing or voice), the page sets exactly that score as
    the overall risk and puts it in the band of that score; a lone voice
    score of 0.8 gives 0.8 and the band high. *)
Theorem single_score_returned :
  (forall (typing : option TypingResults) (voice : option VoiceResults)
          (s : Normalizer.ModalityScore) (st : State),
     Normalizer.reportedScores typing voice = [s] ->
     Normalizer.weight s == 1 ->
     overallRisk (calculateOverallRisk typing voice st) == Normalizer.value s /\
     riskCategory (calculateOverallRisk typing voice st) =
     categoryOf (Normalizer.value s)) /\
  overallRisk (calculateOverallRisk None (Samples.voiceWith (8 # 10) 1) initialState)
    == 8 # 10 /\
  riskCategory (calculateOverallRisk None (Samples.voiceWith (8 # 10) 1) initialState)
    = "high"%string.
Proof.
  split; [| split; reflexivity ].
  intros typing voice s st Hone _.
  unfold calculateOverallRisk. rewrite collectRisks_values, Hone.
  simpl map. simpl fuseRisks. cbv beta zeta.
  assert (E : JS.sum [Normalizer.value s] / JS.length_of [Normalizer.value s]
              == Normalizer.value s).
  { rewrite sum_cons. unfold JS.sum, JS.length_of. simpl.
    change (inject_Z 1) with 1. field. }
  split.
  - simpl overallRisk. exact E.
  - simpl riskCategory. apply categoryOf_compat. exact E.
Qed.

Lemma single_score_returned_witness :
  Normalizer.reportedScores (Samples.typingWith (1 # 4)) None =
    [ {| Normalizer.modality := Normalizer.typing;
         Normalizer.value := 1 # 4; Normalizer.weight := 1 |} ] /\
  overallRisk (calculateOverallRisk (Samples.typingWith (1 # 4)) None initialState)
    == 1 # 4.
Proof.
  split; [ reflexivity |].
  destruct single_score_returned as [H _].
  apply (H (Samples.typingWith (1 # 4)) None
           {| Normalizer.modality := Normalizer.typing;
              Normalizer.value := 1 # 4; Normalizer.weight := 1 |}
           initialState).
  - reflexivity.
  - reflexivity.
Defined.

(** C7. A session in which the blink modality alone has reported (5
    blinks over 60 seconds, blink risk 1.0 at confidence 1.0) should give an
    overall risk of 1.0, the value of that one score; the page reads no
    blink data, collects no risk and stays at its initial state, risk 0 and
    category unknown. *)
Theorem blink_only_session :
  Normalizer.blinkRisk (Normalizer.blinkRatePerMinute 5 60) == 1 /\
  (exists m : Q,
     Normalizer.weightedMean Samples.blinkOnlyScores = Some m /\ m == 1) /\
  collectRisks (typingAnalysis Samples.blinkOnly)
    (voiceAnalysis Samples.blinkOnly) = [] /\
  onMount Samples.blinkOnly = initialState /\
  overallRisk (onMount Samples.blinkOnly) == 0 /\
  riskCategory (onMount Samples.blinkOnly) = "unknown"%string.
Proof.
  split; [ reflexivity |].
  split; [ eexists; split; reflexivity |].
  repeat split.
Qed.

Lemma fuseRisks_permutation (risks risks' : list Q) (st : State) :
  Permutation risks risks' ->
  overallRisk (fuseRisks risks st) == overallRisk (fuseRisks risks' st) /\
  riskCategory (fuseRisks risks st) = riskCategory (fuseRisks risks' st).
Proof.
  intro P.
  assert (Hsum := sum_permutation _ _ P).
  assert (Hlen := Permutation_length P).
  destruct risks as [| x l]; destruct risks' as [| y l']; try discriminate.
  - split; reflexivity.
  - simpl fuseRisks. cbv beta zeta.
    assert (E : JS.sum (x :: l) / JS.length_of (x :: l) ==
                JS.sum (y :: l') / JS.length_of (y :: l')).
    { unfold JS.length_of. rewrite Hlen, Hsum. reflexivity. }
    split.
    + simpl overallRisk. exact E.
    + simpl riskCategory. apply categoryOf_compat. exact E.
Qed.

(** C8. The overall risk and the category do not depend on the order in
    which the scores stand in the array that is averaged; in particular,
    exchanging the typing score and the voice score changes neither. *)
Theorem fusion_order_independent :
  (forall (risks risks' : list Q) (st : State),
     Permutation risks risks' ->
     overallRisk (fuseRisks risks st) == overallRisk (fuseRisks risks' st) /\
     riskCategory (fuseRisks risks st) = riskCategory (fuseRisks risks' st)) /\
  (forall (a b ca cb : Q) (st : State),
     overallRisk
       (calculateOverallRisk (Samples.typingWith a) (Samples.voiceWith b cb) st)
     == overallRisk
          (calculateOverallRisk (Samples.typingWith b) (Samples.voiceWith a ca) st) /\
     riskCategory
       (calculateOverallRisk (Samples.typingWith a) (Samples.voiceWith b cb) st)
     = riskCategory
         (calculateOverallRisk (Samples.typingWith b) (Samples.voiceWith a ca) st)).
Proof.
  split.
  - exact fuseRisks_permutation.
  - intros a b ca cb st. unfold calculateOverallRisk.
    change (collectRisks (Samples.typingWith a) (Samples.voiceWith b cb))
      with [a; b].
    change (collectRisks (Samples.typingWith b) (Samples.voiceWith a ca))
      with [b; a].
    apply fuseRisks_permutation. apply perm_swap.
Qed.

Lemma fusion_order_independent_witness :
  Permutation [1 # 10; 2 # 10; 0] [0; 2 # 10; 1 # 10] /\
  overallRisk (fuseRisks [1 # 10; 2 # 10; 0] initialState) ==
  overallRisk (fuseRisks [0; 2 # 10; 1 # 10] initialState).
Proof.
  assert (P : Permutation [1 # 10; 2 # 10; 0] [0; 2 # 10; 1 # 10]).
  { apply Permutation_sym, Permutation_rev. }
  split; [ exact P |].
  exact (proj1 (proj1 fusion_order_independent _ _ initialState P)).
Defined.

End FusionFacts.

(** ** The blink state machine *)

Section BlinkFacts.

Import BlinkTracker.

Lemma process_snoc (tr : Tracker) (pre : list Sample) (s : Sample) :
  process tr (pre ++ [s]) = step (process tr pre) s.
Proof.
  unfold process. rewrite fold_left_app. reflexivity.
Qed.

Lemma closedRun_snoc (pre : list Sample) (s : Sample) :
  closedRun (pre ++ [s]) =
  if JS.lt (fst s) EAR_THRESHOLD then S (closedRun pre) else O.
Proof.
  unfold closedRun. rewrite rev_app_distr. reflexivity.
Qed.

Lemma step_counter (tr : Tracker) (s : Sample) :
  consecutiveClosedFramesRef (step tr s) =
  if JS.lt (fst s) EAR_THRESHOLD then S (consecutiveClosedFramesRef tr) else O.
Proof.
  unfold step, onResults. simpl.
  destruct (JS.lt (fst s) EAR_THRESHOLD); reflexivity.
Qed.

(** The counter is the length of the closing run seen so far. *)
Lemma counter_is_closedRun (t0 : Q) (samples : list Sample) :
  consecutiveClosedFramesRef (process (startTracking t0) samples) =
  closedRun samples.
Proof.
  induction samples as [| s pre IH] using rev_ind.
  - reflexivity.
  - rewrite process_snoc, closedRun_snoc, step_counter, IH. reflexivity.
Qed.

(** What one frame does to the event log, by the two tests of the callback. *)
Lemma step_log (tr : Tracker) (s : Sample) :
  blinkDataRef (step tr s) =
  if JS.lt (fst s) EAR_THRESHOLD then pushEar (fst s) (blinkDataRef tr)
  else if (CONSEC_FRAMES <=? consecutiveClosedFramesRef tr)%nat
       then recordBlink (snd s) (pushEar (fst s) (blinkDataRef tr))
       else pushEar (fst s) (blinkDataRef tr).
Proof.
  unfold step, onResults. simpl.
  destruct (JS.lt (fst s) EAR_THRESHOLD); [ reflexivity |].
  destruct (consecutiveClosedFramesRef tr) as [| [| n]]; reflexivity.
Qed.

(** A closing run of length at least [n]: the first [n] samples of the
    list are all below the threshold. *)
Lemma leadingClosed_ge (n : nat) (l : list Sample) :
  (n <= leadingClosed l)%nat <->
  exists run rest : list Sample,
    l = run ++ rest /\ List.length run = n /\
    Forall (fun s => fst s < EAR_THRESHOLD) run.
Proof.
  revert l. induction n as [| n IH]; intro l.
  - split; [ intros _ | intros _; lia ].
    exists [], l. repeat split. constructor.
  - split.
    + intro H. destruct l as [| s l']; simpl in H; [ lia |].
      destruct (JS.lt (fst s) EAR_THRESHOLD) eqn:Hlt; [| lia ].
      apply lt_true_iff in Hlt.
      assert (Hn : (n <= leadingClosed l')%nat) by lia.
      apply IH in Hn. destruct Hn as [run [rest [E [Hlen Hall]]]].
      exists (s :: run), rest. subst l'. repeat split.
      * simpl. rewrite Hlen. reflexivity.
      * constructor; assumption.
    + intros [run [rest [E [Hlen Hall]]]].
      destruct run as [| s run']; [ discriminate |].
      subst l. simpl. inversion Hall as [| ? ? Hs Hall']; subst.
      apply lt_true_iff in Hs. rewrite Hs.
      apply le_n_S. apply IH. exists run', rest. repeat split.
      * simpl in Hlen. lia.
      * assumption.
Qed.

(** The same for [closedRun]: the last [n] samples of the stream are all
    below the threshold. *)
Lemma closedRun_ge (n : nat) (pre : list Sample) :
  (n <= closedRun pre)%nat <->
  exists front run : list Sample,
    pre = front ++ run /\ List.length run = n /\
    Forall (fun s => fst s < EAR_THRESHOLD) run.
Proof.
  unfold closedRun. rewrite leadingClosed_ge. split.
  - intros [run [rest [E [Hlen Hall]]]].
    exists (rev rest), (rev run). repeat split.
    + rewrite <- rev_app_distr, <- E. symmetry. apply rev_involutive.
    + rewrite length_rev. exact Hlen.
    + apply Forall_rev. exact Hall.
  - intros [front [run [E [Hlen Hall]]]].
    exists (rev run), (rev front). repeat split.
    + rewrite E. apply rev_app_distr.
    + rewrite length_rev. exact Hlen.
    + apply Forall_rev. exact Hall.
Qed.

(** A frame without a face, or one that arrives while the tracker is not
    active, is skipped: no sample, no change of the counter. *)
Lemma onResults_skips (isActive : bool) (results : FaceMeshResults)
    (now : Q) (tr : Tracker) :
  isActive = false \/ multiFaceLandmarks results = None \/
  multiFaceLandmarks results = Some [] ->
  onResults isActive results now tr = tr.
Proof.
  unfold onResults. intros [H | [H | H]]; rewrite H; simpl;
    destruct isActive; reflexivity.
Qed.

(** The event log stays consistent: one timestamp per counted blink, and
    never more blinks than samples. *)
Lemma log_consistent (t0 : Q) (samples : list Sample) :
  let data := blinkDataRef (process (startTracking t0) samples) in
  blinkCount data = List.length (blinkTimestamps data) /\
  (blinkCount data <= List.length (earValues data))%nat /\
  List.length (earValues data) = List.length samples.
Proof.
  induction samples as [| s pre IH] using rev_ind.
  - simpl. repeat split. lia.
  - cbv zeta in *. rewrite process_snoc, step_log.
    destruct IH as [H1 [H2 H3]].
    destruct (JS.lt (fst s) EAR_THRESHOLD);
      [| destruct (CONSEC_FRAMES <=? _)%nat ];
      simpl; rewrite !length_app; simpl; repeat split; lia.
Qed.

(** C3. After any stream of processed frames, the next frame appends a
    blink event iff its average EAR is at or above the threshold and the
    frames just before it end in a run of at least CONSEC_FRAMES samples
    below the threshold; the event carries the clock reading of that frame.
    A run of exactly CONSEC_FRAMES - 1 appends nothing, and every sample at
    or above the threshold puts the counter back to 0. *)
Theorem blink_emitted_iff (t0 : Q) (pre : list Sample) (s : Sample) :
  let before := process (startTracking t0) pre in
  let after := step before s in
  (emitted before after = true <->
   EAR_THRESHOLD <= fst s /\ (CONSEC_FRAMES <= closedRun pre)%nat) /\
  (emitted before after = true ->
   blinkTimestamps (blinkDataRef after) =
   blinkTimestamps (blinkDataRef before) ++ [snd s]) /\
  (emitted before after = false ->
   blinkCount (blinkDataRef after) = blinkCount (blinkDataRef before) /\
   blinkTimestamps (blinkDataRef after) = blinkTimestamps (blinkDataRef before)) /\
  (closedRun pre = (CONSEC_FRAMES - 1)%nat -> emitted before after = false) /\
  (EAR_THRESHOLD <= fst s -> consecutiveClosedFramesRef after = O) /\
  earValues (blinkDataRef after) = earValues (blinkDataRef before) ++ [fst s].
Proof.
  intros before after. subst after. unfold emitted.
  rewrite step_counter, step_log.
  assert (Hc : consecutiveClosedFramesRef before = closedRun pre)
    by apply counter_is_closedRun.
  rewrite Hc. clear Hc.
  destruct (JS.lt (fst s) EAR_THRESHOLD) eqn:Hlt;
    [ apply lt_true_iff in Hlt | apply lt_false_iff in Hlt ].
  - assert (Hno : (blinkCount (pushEar (fst s) (blinkDataRef before)) =?
                   S (blinkCount (blinkDataRef before)))%nat = false).
    { simpl. apply Nat.eqb_neq. lia. }
    rewrite Hno. simpl.
    repeat split; try discriminate; try reflexivity.
    + intros [Hge _]. exfalso. apply (Qlt_not_le _ _ Hlt Hge).
    + intro Hge. exfalso. apply (Qlt_not_le _ _ Hlt Hge).
  - destruct (CONSEC_FRAMES <=? closedRun pre)%nat eqn:Hrun;
      [ apply Nat.leb_le in Hrun | apply Nat.leb_gt in Hrun ].
    + simpl. rewrite Nat.eqb_refl.
      repeat split; try discriminate; try reflexivity; try assumption.
      intro E. exfalso. rewrite E in Hrun. unfold CONSEC_FRAMES in Hrun. lia.
    + assert (Hno : (blinkCount (pushEar (fst s) (blinkDataRef before)) =?
                     S (blinkCount (blinkDataRef before)))%nat = false).
      { simpl. apply Nat.eqb_neq. lia. }
      rewrite Hno. simpl.
      repeat split; try discriminate; try reflexivity.
      intros [_ Hge]. lia.
Qed.

Lemma blink_emitted_iff_witness :
  closedRun [(1 # 10, 1); (1 # 10, 2)] = CONSEC_FRAMES /\
  emitted (process (startTracking 0) [(1 # 10, 1); (1 # 10, 2)])
          (step (process (startTracking 0) [(1 # 10, 1); (1 # 10, 2)])
                (3 # 10, 3)) = true /\
  closedRun [(3 # 10, 1); (1 # 10, 2)] = (CONSEC_FRAMES - 1)%nat /\
  emitted (process (startTracking 0) [(3 # 10, 1); (1 # 10, 2)])
          (step (process (startTracking 0) [(3 # 10, 1); (1 # 10, 2)])
                (3 # 10, 3)) = false.
Proof.
  split; [ reflexivity |]. split.
  - apply (proj1 (blink_emitted_iff 0 [(1 # 10, 1); (1 # 10, 2)] (3 # 10, 3))).
    split; [ unfold EAR_THRESHOLD; simpl; lra | apply Nat.le_refl ].
  - split; [ reflexivity |].
    apply (proj1 (proj2 (proj2 (proj2
             (blink_emitted_iff 0 [(3 # 10, 1); (1 # 10, 2)] (3 # 10, 3)))))).
    reflexivity.
Defined.

End BlinkFacts.

(** ** The blink risk *)

Section BlinkRiskFacts.

Import Normalizer.

Lemma blinkRisk_cases (r : Q) :
  let x := (20 - r) / 15 in
  (x <= 0 /\ blinkRisk r == 0) \/
  (0 <= x /\ x <= 1 /\ blinkRisk r == x) \/
  (1 <= x /\ blinkRisk r == 1).
Proof.
  intro x. unfold blinkRisk, JS.Math_max, JS.Math_min. fold x.
  destruct (Q.min_spec 1 x) as [[H1 E1] | [H1 E1]];
    destruct (Q.max_spec 0 (Qmin 1 x)) as [[H2 E2] | [H2 E2]];
    rewrite E2; rewrite E1 in *.
  - right. right. split; [ lra | reflexivity ].
  - lra.
  - right. left. repeat split; try lra.
  - left. split; [ lra | reflexivity ].
Qed.

Lemma clamp01_cases (x : Q) :
  (x < 0 /\ clamp01 x = 0) \/
  (0 <= x /\ x <= 1 /\ clamp01 x = x) \/
  (1 < x /\ clamp01 x = 1).
Proof.
  unfold clamp01.
  destruct (JS.lt x 0) eqn:H0;
    [ apply lt_true_iff in H0 | apply lt_false_iff in H0 ].
  - left. split; [ assumption | reflexivity ].
  - destruct (JS.lt 1 x) eqn:H1;
      [ apply lt_true_iff in H1 | apply lt_false_iff in H1 ].
    + right. right. split; [ assumption | reflexivity ].
    + right. left. repeat split; assumption.
Qed.

(** C4. For every non-negative blink rate the risk is the clamped value of
    (20 - r) / 15: 0 from 20 blinks per minute on, 1 up to 5 blinks per
    minute, linear in between, and always between 0 and 1. *)
Theorem blinkRisk_clamped (r : Q) :
  0 <= r ->
  blinkRisk r == clamp01 ((20 - r) / 15) /\
  0 <= blinkRisk r /\ blinkRisk r <= 1 /\
  (20 <= r -> blinkRisk r == 0) /\
  (r <= 5 -> blinkRisk r == 1) /\
  (5 <= r -> r <= 20 -> blinkRisk r == (20 - r) / 15) /\
  blinkRisk 0 == 1.
Proof.
  intros _.
  assert (Hx : (20 - r) / 15 * 15 == 20 - r) by (field).
  pose proof (blinkRisk_cases r) as Hb. cbv zeta in Hb.
  pose proof (clamp01_cases ((20 - r) / 15)) as Hc.
  set (x := (20 - r) / 15) in *.
  repeat split.
  - destruct Hb as [[B1 B2] | [[B1 [B2 B3]] | [B1 B2]]];
      destruct Hc as [[C1 C2] | [[C1 [C2 C3]] | [C1 C2]]];
      rewrite C2 || rewrite C3; rewrite B2 || rewrite B3; lra.
  - destruct Hb as [[B1 B2] | [[B1 [B2 B3]] | [B1 B2]]]; lra.
  - destruct Hb as [[B1 B2] | [[B1 [B2 B3]] | [B1 B2]]]; lra.
  - intro H. destruct Hb as [[B1 B2] | [[B1 [B2 B3]] | [B1 B2]]]; lra.
  - intro H. destruct Hb as [[B1 B2] | [[B1 [B2 B3]] | [B1 B2]]]; lra.
  - intros H5 H20. destruct Hb as [[B1 B2] | [[B1 [B2 B3]] | [B1 B2]]]; lra.
Qed.

Lemma blinkRisk_clamped_witness :
  0 <= 15 /\ blinkRisk 15 == 1 # 3 /\ blinkRisk 15 == clamp01 ((20 - 15) / 15).
Proof.
  assert (H : 0 <= 15) by lra.
  destruct (blinkRisk_clamped 15 H) as [E [_ [_ [_ [_ [L _]]]]]].
  split; [ exact H | split ].
  - rewrite L; [ reflexivity | lra | lra ].
  - exact E.
Defined.

End BlinkRiskFacts.

(** ** The keystroke channel *)

Section ChannelFacts.

Import TypingTest.

Lemma countEnd_app (l l' : list Message) :
  countEnd (l ++ l') = (countEnd l + countEnd l')%nat.
Proof.
  unfold countEnd. rewrite filter_app, length_app. reflexivity.
Qed.

(** The guarded send of both call sites: it never throws, it transmits one
    [end] on an open socket and nothing otherwise. *)
Lemma guarded_send (ws : WebSocket) :
  exists ws' : WebSocket,
    (if isOpen ws then send EndSignal ws else inr ws) = inr ws' /\
    readyState ws' = readyState ws /\
    sent ws' = sent ws ++ (if isOpen ws then [EndSignal] else []).
Proof.
  unfold isOpen, send. destruct ws as [[| | |] out]; simpl;
    eexists; (split; [ reflexivity | split; [ reflexivity |] ]);
    simpl; try reflexivity; rewrite app_nil_r; reflexivity.
Qed.

(** C9. The cleanup run on unmount and the interval callback at expiry each
    make one guarded attempt to send [end]: whatever the state of the
    socket, neither throws; on an open socket exactly one [end] is handed
    to the network, on any other socket nothing is sent.  Expiry also stops
    the timer, so the callback does not fire again. *)
Theorem end_attempted_once :
  (forall ws : WebSocket,
     exists ws' : WebSocket,
       cleanup ws = inr ws' /\
       sent ws' = sent ws ++ (if isOpen ws then [EndSignal] else []) /\
       countEnd (sent ws') =
       (countEnd (sent ws) + (if isOpen ws then 1 else 0))%nat /\
       readyState ws' <> OPEN) /\
  (forall st : Timer,
     (timeLeft st <= 1)%Z ->
     exists st' : Timer,
       tick st = inr st' /\
       outbox st' =
       outbox st ++
       (match wsRef st with
        | Some ws => if isOpen ws then [EndSignal] else []
        | None => []
        end) /\
       timeLeft st' = 0%Z /\ isActive st' = false /\ isComplete st' = true).
Proof.
  split.
  - intro ws. unfold cleanup.
    destruct (guarded_send ws) as [ws' [E [Hrs Hsent]]]. rewrite E.
    exists (close ws'). split; [ reflexivity |].
    assert (Hc : sent (close ws') = sent ws').
    { unfold close. destruct (readyState ws'); reflexivity. }
    rewrite Hc, Hsent. split; [ reflexivity | split ].
    + rewrite countEnd_app. destruct (isOpen ws); reflexivity.
    + unfold close. destruct ws' as [[| | |] out]; simpl; discriminate.
  - intros st Hexp. unfold tick.
    apply Z.leb_le in Hexp. rewrite Hexp.
    unfold outbox. destruct (wsRef st) as [ws |].
    + destruct (guarded_send ws) as [ws' [E [_ Hsent]]]. rewrite E.
      eexists. split; [ reflexivity |]. simpl. rewrite Hsent.
      repeat split.
    + eexists. split; [ reflexivity |]. simpl. repeat split.
Qed.

Lemma end_attempted_once_witness :
  (timeLeft {| timeLeft := 1; isActive := true; isComplete := false;
               wsRef := Some {| readyState := CLOSED; sent := [] |} |} <= 1)%Z /\
  exists st' : Timer,
    tick {| timeLeft := 1; isActive := true; isComplete := false;
            wsRef := Some {| readyState := CLOSED; sent := [] |} |} = inr st' /\
    outbox st' = [].
Proof.
  assert (H : (timeLeft {| timeLeft := 1; isActive := true; isComplete := false;
                 wsRef := Some {| readyState := CLOSED; sent := [] |} |} <= 1)%Z)
    by (simpl; lia).
  split; [ exact H |].
  destruct (proj2 end_attempted_once _ H) as [st' [E [Hout _]]].
  exists st'. split; [ exact E | exact Hout ].
Defined.

(** The two attempts are independent of each other: when the timer runs
    out on an open socket and the component is unmounted while the socket
    is still open, the network has been handed two [end] messages. *)
Remark expiry_then_unmount (out : list Message) :
  exists (st' : Timer) (ws' ws'' : WebSocket),
    tick {| timeLeft := 1; isActive := true; isComplete := false;
            wsRef := Some {| readyState := OPEN; sent := out |} |} = inr st' /\
    wsRef st' = Some ws' /\
    cleanup ws' = inr ws'' /\
    sent ws'' = out ++ [EndSignal; EndSignal].
Proof.
  eexists. eexists. eexists. simpl.
  split; [ reflexivity |]. split; [ reflexivity |].
  split; [ reflexivity |]. simpl. rewrite <- app_assoc. reflexivity.
Qed.

End ChannelFacts.

(** ** The accuracy of the typing test *)

Section AccuracyFacts.

Import TypingTest.

Lemma get_some_lt (s : string) (j : nat) (c : ascii) :
  String.get j s = Some c -> (j < String.length s)%nat.
Proof.
  revert j. induction s as [| a s IH]; intros j H.
  - destruct j; discriminate.
  - destruct j as [| j]; simpl in *.
    + lia.
    + apply IH in H. lia.
Qed.

Lemma get_lt_some (s : string) (j : nat) :
  (j < String.length s)%nat -> exists c : ascii, String.get j s = Some c.
Proof.
  revert j. induction s as [| a s IH]; intros j H; simpl in H.
  - lia.
  - destruct j as [| j]; simpl.
    + eexists. reflexivity.
    + apply IH. lia.
Qed.

(** An index counts only where both strings have the same character: never
    beyond the end of the reference word, never on a mismatch. *)
Lemma matchingIndices_spec (typedWord word : string) (j : nat) :
  In j (matchingIndices typedWord word) <->
  exists c : ascii,
    String.get j typedWord = Some c /\ String.get j word = Some c.
Proof.
  unfold matchingIndices. rewrite filter_In.
  pose proof (in_seq (String.length typedWord) O j) as Hseq.
  split.
  - intros [Hin Heq]. apply Hseq in Hin. destruct Hin as [_ Hj]. simpl in Hj.
    destruct (get_lt_some typedWord j Hj) as [c Hc]. exists c.
    split; [ exact Hc |]. rewrite Hc in Heq.
    destruct (String.get j word) as [d |]; simpl in Heq; [| discriminate ].
    apply Ascii.eqb_eq in Heq. subst d. reflexivity.
  - intros [c [Ht Hw]]. split.
    + apply Hseq. split; [ lia |]. simpl. exact (get_some_lt _ _ _ Ht).
    + rewrite Ht, Hw. simpl. apply Ascii.eqb_refl.
Qed.

Lemma matchingIndices_bound (typedWord word : string) :
  (List.length (matchingIndices typedWord word) <= String.length word)%nat.
Proof.
  rewrite <- (length_seq (String.length word) 0).
  apply NoDup_incl_length.
  - unfold matchingIndices. apply NoDup_filter, seq_NoDup.
  - intros j Hj. apply matchingIndices_spec in Hj.
    destruct Hj as [c [_ Hw]]. apply in_seq.
    apply get_some_lt in Hw. lia.
Qed.

Lemma countWord_le (reference : list string) (i : nat) (typedWord : string)
    (c : Counters) :
  (correctChars c <= totalChars c)%nat ->
  (correctChars (countWord reference i typedWord c) <=
   totalChars (countWord reference i typedWord c))%nat.
Proof.
  intro H. unfold countWord.
  destruct (nth_error reference i) as [word |]; [| exact H ].
  destruct (truthy word); [| exact H ].
  simpl. pose proof (matchingIndices_bound typedWord word). lia.
Qed.

Lemma countFrom_le (reference typed : list string) (i : nat) (c : Counters) :
  (correctChars c <= totalChars c)%nat ->
  (correctChars (countFrom reference i typed c) <=
   totalChars (countFrom reference i typed c))%nat.
Proof.
  revert i c. induction typed as [| typedWord rest IH]; intros i c H; simpl.
  - exact H.
  - apply IH, countWord_le, H.
Qed.

Lemma countWord_total_mono (reference : list string) (i : nat)
    (typedWord : string) (c : Counters) :
  (totalChars c <= totalChars (countWord reference i typedWord c))%nat.
Proof.
  unfold countWord.
  destruct (nth_error reference i) as [word |]; [| lia ].
  destruct (truthy word); simpl; lia.
Qed.

Lemma countFrom_total_mono (reference typed : list string) (i : nat)
    (c : Counters) :
  (totalChars c <= totalChars (countFrom reference i typed c))%nat.
Proof.
  revert i c. induction typed as [| typedWord rest IH]; intros i c; simpl.
  - lia.
  - pose proof (countWord_total_mono reference i typedWord c).
    pose proof (IH (S i) (countWord reference i typedWord c)). lia.
Qed.

Lemma split_not_nil (sep : ascii) (s : string) : split sep s <> [].
Proof.
  destruct s as [| c rest]; simpl; [ discriminate |].
  destruct (split sep rest); [ discriminate |].
  destruct (Ascii.eqb c sep); discriminate.
Qed.

(** With the fixed sample text the first reference word is always counted. *)
Lemma sample_total_pos (input : string) :
  (0 < totalChars (countChars words (typedWords input)))%nat.
Proof.
  unfold countChars, typedWords.
  destruct (split " " (trim input)) as [| typedWord rest] eqn:E.
  - exfalso. exact (split_not_nil _ _ E).
  - simpl countFrom.
    pose proof (countFrom_total_mono words rest 1
                  (countWord words 0 typedWord
                     {| correctChars := 0; totalChars := 0 |})) as H.
    assert (H0 : (3 <= totalChars (countWord words 0 typedWord
                     {| correctChars := 0; totalChars := 0 |}))%nat).
    { unfold countWord. change (nth_error words 0) with (Some "The"%string).
      simpl. lia. }
    lia.
Qed.

Lemma round_percentage (c t : nat) :
  (c <= t)%nat -> (0 < t)%nat ->
  exists n : Z,
    (0 <= n <= 100)%Z /\
    JS.Math_round (inject_Z (Z.of_nat c) / inject_Z (Z.of_nat t) * 100) ==
    inject_Z n.
Proof.
  intros Hle Hpos. unfold JS.Math_round.
  set (x := inject_Z (Z.of_nat c) / inject_Z (Z.of_nat t) * 100).
  exists (Qfloor (x + (1 # 2))). split; [| reflexivity ].
  assert (Ht : 0 < inject_Z (Z.of_nat t)).
  { change 0 with (inject_Z 0). rewrite <- Zlt_Qlt. lia. }
  assert (Hc : 0 <= inject_Z (Z.of_nat c)).
  { change 0 with (inject_Z 0). rewrite <- Zle_Qle. lia. }
  assert (Hct : inject_Z (Z.of_nat c) <= inject_Z (Z.of_nat t)).
  { rewrite <- Zle_Qle. lia. }
  assert (Hq0 : 0 <= inject_Z (Z.of_nat c) / inject_Z (Z.of_nat t)).
  { apply Qle_shift_div_l; [ exact Ht |]. lra. }
  assert (Hq1 : inject_Z (Z.of_nat c) / inject_Z (Z.of_nat t) <= 1).
  { apply Qle_shift_div_r; [ exact Ht |]. lra. }
  assert (Hx : 0 <= x /\ x <= 100) by (unfold x; split; lra).
  split.
  - change 0%Z with (Qfloor (1 # 2)). apply Qfloor_resp_le. lra.
  - change 100%Z with (Qfloor (201 # 2)). apply Qfloor_resp_le. lra.
Qed.

(** C10. Only positions where the typed word and the reference word hold
    the same character count as correct, so [correctChars] never exceeds
    [totalChars]; when reference characters were covered the accuracy is set
    to an integer between 0 and 100, and when none were it keeps the value it
    had, 100 at the start.  With the fixed sample text the accuracy after the
    effect is an integer between 0 and 100 for every content of the text
    area. *)
Theorem accuracy_is_percentage :
  (forall (typedWord word : string) (j : nat),
     In j (matchingIndices typedWord word) ->
     (j < String.length word)%nat /\
     String.get j typedWord = String.get j word) /\
  (forall reference typed : list string,
     (correctChars (countChars reference typed) <=
      totalChars (countChars reference typed))%nat) /\
  (forall (reference typed : list string) (accuracy : Q),
     (0 < totalChars (countChars reference typed))%nat ->
     exists n : Z,
       (0 <= n <= 100)%Z /\
       updateAccuracy reference typed accuracy == inject_Z n) /\
  (forall reference typed : list string,
     totalChars (countChars reference typed) = O ->
     updateAccuracy reference typed initialAccuracy = 100) /\
  (forall (input : string) (accuracy : Q),
     exists n : Z,
       (0 <= n <= 100)%Z /\ metricsEffect input accuracy == inject_Z n).
Proof.
  assert (Hle : forall reference typed : list string,
            (correctChars (countChars reference typed) <=
             totalChars (countChars reference typed))%nat).
  { intros reference typed. unfold countChars. apply countFrom_le. simpl. lia. }
  assert (Hset : forall (reference typed : list string) (accuracy : Q),
            (0 < totalChars (countChars reference typed))%nat ->
            exists n : Z,
              (0 <= n <= 100)%Z /\
              updateAccuracy reference typed accuracy == inject_Z n).
  { intros reference typed accuracy Hpos. unfold updateAccuracy.
    apply Nat.ltb_lt in Hpos. rewrite Hpos. unfold ratio.
    apply round_percentage; [ apply Hle | apply Nat.ltb_lt, Hpos ]. }
  split; [| split; [ exact Hle | split; [ exact Hset | split ] ] ].
  - intros typedWord word j Hj. apply matchingIndices_spec in Hj.
    destruct Hj as [c [Ht Hw]]. split.
    + exact (get_some_lt _ _ _ Hw).
    + rewrite Ht, Hw. reflexivity.
  - intros reference typed H0. unfold updateAccuracy. rewrite H0. reflexivity.
  - intros input accuracy. unfold metricsEffect.
    apply Hset, sample_total_pos.
Qed.

Lemma accuracy_is_percentage_witness :
  totalChars (countChars [] (typedWords "abc")) = O /\
  updateAccuracy [] (typedWords "abc") initialAccuracy = 100 /\
  (0 < totalChars (countChars words (typedWords "The earlx")))%nat /\
  exists n : Z,
    (0 <= n <= 100)%Z /\ metricsEffect "The earlx" initialAccuracy == inject_Z n.
Proof.
  destruct accuracy_is_percentage as [_ [_ [Hset [Hkeep _]]]].
  assert (H0 : totalChars (countChars [] (typedWords "abc")) = O) by reflexivity.
  assert (H1 : (0 < totalChars (countChars words (typedWords "The earlx")))%nat)
    by (vm_compute; lia).
  split; [ exact H0 | split; [ exact (Hkeep _ _ H0) | split; [ exact H1 |] ] ].
  exact (Hset words (typedWords "The earlx") initialAccuracy H1).
Defined.

End AccuracyFacts.

(** ** The typing session: server messages *)

Section MessageFacts.

Import TypingTest TypingSession.

Lemma lastWhere_snoc {A : Type} (f : A -> bool) (l : list A) (a : A) :
  lastWhere f (l ++ [a]) = if f a then Some a else lastWhere f l.
Proof.
  unfold lastWhere. rewrite fold_left_app. reflexivity.
Qed.

Lemma lastWhere_none {A : Type} (f : A -> bool) (l : list A) :
  lastWhere f l = None <-> Forall (fun a => f a = false) l.
Proof.
  induction l as [| a l IH] using rev_ind.
  - split; [ constructor | reflexivity ].
  - rewrite lastWhere_snoc, Forall_app. destruct (f a) eqn:E; split.
    + discriminate.
    + intros [_ H]. inversion H; subst. congruence.
    + intro H. split; [ apply IH, H | repeat constructor; exact E ].
    + intros [H _]. apply IH, H.
Qed.

Lemma receive_snoc (msgs : list ServerMessage) (m : ServerMessage)
    (st : Analysis) :
  receive (msgs ++ [m]) st = onmessage m (receive msgs st).
Proof.
  unfold receive. rewrite fold_left_app. reflexivity.
Qed.

Lemma setScoreIfDefined_storage (s : option Q) (st : Analysis) :
  storage (setScoreIfDefined s st) = storage st.
Proof. destruct s; reflexivity. Qed.

Lemma setBandIfTruthy_storage (b : option string) (st : Analysis) :
  storage (setBandIfTruthy b st) = storage st.
Proof. destruct b as [v |]; simpl; [ destruct (truthy v) |]; reflexivity. Qed.

Lemma setBandIfTruthy_score (b : option string) (st : Analysis) :
  analysisScore (setBandIfTruthy b st) = analysisScore st.
Proof. destruct b as [v |]; simpl; [ destruct (truthy v) |]; reflexivity. Qed.

Lemma onmessage_storage (m : ServerMessage) (st : Analysis) :
  storage (onmessage m st) =
  if isFinal m then
    {| ResultsPage.typingAnalysis := Some (storedAs m);
       ResultsPage.voiceAnalysis := ResultsPage.voiceAnalysis (storage st);
       ResultsPage.blinkAnalysisTyping :=
         ResultsPage.blinkAnalysisTyping (storage st);
       ResultsPage.blinkAnalysisVoice :=
         ResultsPage.blinkAnalysisVoice (storage st) |}
  else storage st.
Proof.
  unfold onmessage, isFinal.
  destruct (String.eqb_spec (msgType m) "connected") as [E1 | N1].
  - rewrite E1. reflexivity.
  - destruct (String.eqb_spec (msgType m) "update") as [E2 | N2].
    + rewrite E2. simpl.
      rewrite setBandIfTruthy_storage, setScoreIfDefined_storage. reflexivity.
    + destruct (String.eqb (msgType m) "final"); [| reflexivity ].
      simpl. rewrite setBandIfTruthy_storage, setScoreIfDefined_storage.
      reflexivity.
Qed.

Lemma onmessage_score (m : ServerMessage) (st : Analysis) :
  analysisScore (onmessage m st) =
  match shownScore m with
  | Some s => Some s
  | None => analysisScore st
  end.
Proof.
  unfold onmessage, shownScore.
  destruct (String.eqb_spec (msgType m) "connected") as [E1 | N1].
  - rewrite E1. reflexivity.
  - destruct (String.eqb (msgType m) "update").
    + rewrite setBandIfTruthy_score. destruct (score m); reflexivity.
    + destruct (String.eqb (msgType m) "final"); [| reflexivity ].
      simpl. rewrite setBandIfTruthy_score. destruct (score_0to1 m); reflexivity.
Qed.

Lemma receive_storage (msgs : list ServerMessage) (st : Analysis) :
  ResultsPage.typingAnalysis (storage (receive msgs st)) =
    match lastWhere isFinal msgs with
    | Some m => Some (storedAs m)
    | None => ResultsPage.typingAnalysis (storage st)
    end /\
  ResultsPage.voiceAnalysis (storage (receive msgs st)) =
    ResultsPage.voiceAnalysis (storage st) /\
  ResultsPage.blinkAnalysisTyping (storage (receive msgs st)) =
    ResultsPage.blinkAnalysisTyping (storage st) /\
  ResultsPage.blinkAnalysisVoice (storage (receive msgs st)) =
    ResultsPage.blinkAnalysisVoice (storage st).
Proof.
  induction msgs as [| m msgs IH] using rev_ind.
  - repeat split.
  - rewrite receive_snoc, onmessage_storage, lastWhere_snoc.
    destruct IH as [H1 [H2 [H3 H4]]].
    destruct (isFinal m); simpl; repeat split; assumption.
Qed.

(** X1. After any sequence of server messages the stored typing analysis
    is the last [final] message of the sequence, or what was stored before
    when there is none; no message touches the other storage keys. *)
Theorem last_final_is_stored (msgs : list ServerMessage) (st : Analysis) :
  ResultsPage.typingAnalysis (storage (receive msgs st)) =
    match lastWhere isFinal msgs with
    | Some m => Some (storedAs m)
    | None => ResultsPage.typingAnalysis (storage st)
    end /\
  ResultsPage.voiceAnalysis (storage (receive msgs st)) =
    ResultsPage.voiceAnalysis (storage st) /\
  ResultsPage.blinkAnalysisTyping (storage (receive msgs st)) =
    ResultsPage.blinkAnalysisTyping (storage st) /\
  ResultsPage.blinkAnalysisVoice (storage (receive msgs st)) =
    ResultsPage.blinkAnalysisVoice (storage st).
Proof.
  pose proof (receive_storage msgs st) as [H1 [H2 [H3 H4]]].
  split; [ exact H1 | split; [ exact H2 | split; [ exact H3 | exact H4 ] ] ].
Qed.

(** X2. Scores that arrive in [update] messages never reach the results
    page: when a session brought no [final] message, the page computes
    what it would have computed before the session.  When it did, and no
    voice analysis is stored, the overall risk is the [score_0to1] of the
    last [final] message and the category is the band of that score. *)
Theorem only_final_reaches_results (msgs : list ServerMessage) (st : Analysis) :
  (Forall (fun m => isFinal m = false) msgs ->
   ResultsPage.onMount (storage (receive msgs st)) =
   ResultsPage.onMount (storage st)) /\
  (forall (m : ServerMessage) (s : Q),
     lastWhere isFinal msgs = Some m ->
     score_0to1 m = Some s ->
     ResultsPage.voiceAnalysis (storage st) = None ->
     ResultsPage.overallRisk (ResultsPage.onMount (storage (receive msgs st)))
       == s /\
     ResultsPage.riskCategory (ResultsPage.onMount (storage (receive msgs st)))
       = ResultsPage.categoryOf s).
Proof.
  destruct (receive_storage msgs st) as [Ht [Hv _]].
  unfold ResultsPage.onMount. rewrite Ht, Hv. split.
  - intro Hno. apply lastWhere_none in Hno. rewrite Hno. reflexivity.
  - intros m s Hlast Hs Hvoice. rewrite Hlast, Hvoice.
    unfold ResultsPage.calculateOverallRisk, ResultsPage.collectRisks.
    simpl. rewrite Hs. simpl.
    assert (E : JS.sum [s] / JS.length_of [s] == s).
    { rewrite sum_cons. unfold JS.sum, JS.length_of. simpl.
      change (inject_Z 1) with 1. field. }
    split; [ exact E | apply categoryOf_compat, E ].
Qed.


(** Sample messages. *)
Lemma only_final_reaches_results_witness :
  let update :=
    {| msgType := "update"; session_id := ""; score := Some (9 # 10);
       score_0to1 := None; band := Some "HIGH"%string |} in
  let final :=
    {| msgType := "final"; session_id := "s1"; score := None;
       score_0to1 := Some (1 # 4); band := Some "LOW"%string |} in
  let st := initialAnalysis
              {| ResultsPage.typingAnalysis := None;
                 ResultsPage.voiceAnalysis := None;
                 ResultsPage.blinkAnalysisTyping := None;
                 ResultsPage.blinkAnalysisVoice := None |} in
  ResultsPage.riskCategory (ResultsPage.onMount (storage (receive [update] st)))
    = "unknown"%string /\
  ResultsPage.overallRisk
    (ResultsPage.onMount (storage (receive [update; final; update] st)))
    == 1 # 4.
Proof.
  intros update final st. split.
  - rewrite (proj1 (only_final_reaches_results [update] st)).
    + reflexivity.
    + repeat constructor.
  - apply (proj2 (only_final_reaches_results [update; final; update] st)
             final (1 # 4)); reflexivity.
Defined.

(** X3. The score the component shows is the one of the last message that
    carried a score, whether [update] ([score]) or [final] ([score_0to1]):
    an [update] that arrives after the [final] message replaces the final
    score on screen. *)
Theorem shown_score_is_last (msgs : list ServerMessage) (st : Analysis) :
  analysisScore (receive msgs st) =
  match lastWhere (fun m => match shownScore m with
                            | Some _ => true
                            | None => false
                            end) msgs with
  | Some m => shownScore m
  | None => analysisScore st
  end.
Proof.
  induction msgs as [| m msgs IH] using rev_ind.
  - reflexivity.
  - rewrite receive_snoc, onmessage_score, lastWhere_snoc.
    destruct (shownScore m) eqn:E; [ rewrite E; reflexivity | exact IH ].
Qed.

End MessageFacts.

(** ** The typing session: timer, key handlers and traces *)

Section SessionFacts.

Import TypingTest TypingSession.

Lemma tick_running (st : Timer) :
  (1 < timeLeft st)%Z ->
  tick st = inr {| timeLeft := timeLeft st - 1; isActive := isActive st;
                   isComplete := isComplete st; wsRef := wsRef st |}.
Proof.
  intro H. unfold tick. apply Z.leb_gt in H. rewrite H. reflexivity.
Qed.

Lemma tick_expiry (st : Timer) :
  (timeLeft st <= 1)%Z ->
  exists st' : Timer,
    tick st = inr st' /\ timeLeft st' = 0%Z /\ isActive st' = false /\
    isComplete st' = true /\ outbox st' = outbox st ++ endIfOpen st.
Proof.
  intro H. unfold tick, outbox, endIfOpen. apply Z.leb_le in H. rewrite H.
  destruct (wsRef st) as [ws |].
  - destruct (guarded_send ws) as [ws' [E [_ Hs]]]. rewrite E.
    eexists. split; [ reflexivity |]. simpl. rewrite Hs. repeat split.
  - eexists. split; [ reflexivity |]. simpl. repeat split.
Qed.

Lemma seconds_idle (n : nat) (st : Timer) :
  isActive st = false -> seconds n st = inr st.
Proof.
  intro H. induction n as [| n IH]; simpl; [ reflexivity |].
  unfold second. rewrite H. simpl. exact IH.
Qed.

Lemma seconds_running (n : nat) :
  forall st : Timer,
    isActive st = true -> (Z.of_nat n < timeLeft st)%Z ->
    seconds n st =
    inr {| timeLeft := timeLeft st - Z.of_nat n; isActive := true;
           isComplete := isComplete st; wsRef := wsRef st |}.
Proof.
  induction n as [| n IH]; intros st Ha Hn.
  - simpl. rewrite Z.sub_0_r. destruct st; simpl in *; subst; reflexivity.
  - simpl seconds. unfold second. rewrite Ha.
    assert (Hpos : (0 <? timeLeft st)%Z = true) by (apply Z.ltb_lt; lia).
    rewrite Hpos. simpl. rewrite tick_running by lia.
    rewrite IH; simpl; [| exact Ha | lia ].
    f_equal. f_equal. lia.
Qed.

Lemma seconds_expired (n : nat) (st : Timer) :
  isActive st = true -> (1 <= timeLeft st)%Z -> (timeLeft st <= Z.of_nat n)%Z ->
  exists st' : Timer,
    seconds n st = inr st' /\ timeLeft st' = 0%Z /\ isActive st' = false /\
    isComplete st' = true /\ outbox st' = outbox st ++ endIfOpen st.
Proof.
  intros Ha H1 Hn.
  set (k := Z.to_nat (timeLeft st - 1)).
  assert (Hsplit : n = (k + S (n - S k))%nat) by lia.
  assert (Hplus : forall a b s, seconds (a + b) s =
            match seconds a s with inl e => inl e | inr s' => seconds b s' end).
  { induction a as [| a IHa]; intros b s; simpl; [ reflexivity |].
    destruct (second s); [ reflexivity | apply IHa ]. }
  rewrite Hsplit, Hplus, seconds_running by (try assumption; lia).
  simpl seconds. unfold second. simpl.
  replace (0 <? timeLeft st - Z.of_nat k)%Z with true
    by (symmetry; apply Z.ltb_lt; lia).
  destruct (tick_expiry {| timeLeft := timeLeft st - Z.of_nat k;
                           isActive := true; isComplete := isComplete st;
                           wsRef := wsRef st |}) as [st' [E [T [A [C O]]]]].
  { simpl. lia. }
  rewrite E, seconds_idle by exact A.
  exists st'. repeat split; assumption.
Qed.

(** X4. Once the test is active the countdown shows [max(0, 30 - n)]
    after [n] seconds and never goes below 0; the test is complete from the
    30th second on and not before; and over the whole countdown the socket
    is handed exactly one [end] message, at the 30th second, when it is open
    then, and none when it is not. *)
Theorem countdown (n : nat) (w : option WebSocket) :
  let st := {| timeLeft := 30; isActive := true; isComplete := false;
               wsRef := w |} in
  exists st' : Timer,
    seconds n st = inr st' /\
    timeLeft st' = Z.max 0 (30 - Z.of_nat n) /\
    isComplete st' = (30 <=? n)%nat /\
    isActive st' = negb (30 <=? n)%nat /\
    outbox st' = outbox st ++ (if (30 <=? n)%nat then endIfOpen st else []).
Proof.
  intro st. destruct (30 <=? n)%nat eqn:H.
  - apply Nat.leb_le in H.
    assert (Hn : (timeLeft st <= Z.of_nat n)%Z) by (simpl; lia).
    assert (H1 : (1 <= timeLeft st)%Z) by (simpl; lia).
    destruct (seconds_expired n st eq_refl H1 Hn) as [st' [E [T [A [C O]]]]].
    exists st'. repeat split; try assumption. rewrite T. lia.
  - apply Nat.leb_gt in H.
    assert (Hn : (Z.of_nat n < timeLeft st)%Z) by (simpl; lia).
    rewrite (seconds_running n st eq_refl Hn).
    eexists. split; [ reflexivity |].
    cbn [timeLeft isActive isComplete wsRef outbox st].
    rewrite app_nil_r. repeat split. lia.
Qed.

Lemma sendKey_spec (event_type key : string) (now : Q) (st : Timer) :
  exists st' : Timer,
    sendKey event_type key now st = inr st' /\
    timeLeft st' = timeLeft st /\ isActive st' = isActive st /\
    isComplete st' = isComplete st /\
    (wsRef st = None -> wsRef st' = None) /\
    outbox st' =
    outbox st ++
    (if negb (isComplete st) then
       match wsRef st with
       | Some ws => if isOpen ws then [Key event_type key (now / 1000)] else []
       | None => []
       end
     else []).
Proof.
  unfold sendKey, outbox. destruct (isComplete st) eqn:C; simpl.
  - exists st. rewrite app_nil_r. repeat split; auto.
  - destruct (wsRef st) as [ws |] eqn:W.
    + unfold isOpen, send. destruct ws as [[| | |] out]; simpl;
        eexists; (split; [ reflexivity |]); simpl; rewrite ?W, ?app_nil_r;
        repeat split; auto; try discriminate.
    + exists st. rewrite W, app_nil_r. repeat split; auto.
Qed.

(** X5. A key handler never throws, whatever the state of the socket.  It
    hands one message to the network, carrying the event type, the key and
    the clock reading in seconds, when the test is not complete and the
    socket is open; otherwise it sends nothing.  Key presses are sent as
    [press], releases as [release]. *)
Theorem key_handlers_guarded (key : string) (now : Q) (st : Timer) :
  (exists st' : Timer,
     handleKeyDown key now st = inr st' /\
     outbox st' =
     outbox st ++
     (if negb (isComplete st) then
        match wsRef st with
        | Some ws => if isOpen ws then [Key "press" key (now / 1000)] else []
        | None => []
        end
      else [])) /\
  (exists st' : Timer,
     handleKeyUp key now st = inr st' /\
     outbox st' =
     outbox st ++
     (if negb (isComplete st) then
        match wsRef st with
        | Some ws => if isOpen ws then [Key "release" key (now / 1000)] else []
        | None => []
        end
      else [])).
Proof.
  unfold handleKeyDown, handleKeyUp. split.
  - destruct (sendKey_spec "press" key now st) as [st' [E [_ [_ [_ [_ O]]]]]].
    exists st'. split; assumption.
  - destruct (sendKey_spec "release" key now st) as [st' [E [_ [_ [_ [_ O]]]]]].
    exists st'. split; assumption.
Qed.


Lemma activate_spec (i : string) (t : Timer) :
  outbox (activate i t) = outbox t /\
  isComplete (activate i t) = isComplete t /\
  timeLeft (activate i t) = timeLeft t /\
  (isComplete t = true -> isActive (activate i t) = isActive t).
Proof.
  destruct t as [tl a c w]. unfold activate, outbox. simpl.
  destruct (0 <? String.length i)%nat, a, c; simpl;
    (split; [ reflexivity | split; [ reflexivity | split; [ reflexivity |] ] ]);
    intro H; try reflexivity; discriminate H.
Qed.

Lemma keysThenEnd_same (base : list Message) (t t' : Timer) :
  outbox t' = outbox t -> isComplete t' = isComplete t ->
  (isComplete t = true -> isActive t' = isActive t) ->
  keysThenEnd base t -> keysThenEnd base t'.
Proof.
  intros Ho Hc Ha [[keys [tail [E [K T]]]] I]. split.
  - exists keys, tail. rewrite Ho, Hc. repeat split; assumption.
  - rewrite Hc. intro C. rewrite (Ha C). exact (I C).
Qed.

Lemma keysThenEnd_keys (base extra : list Message) (t t' : Timer) :
  outbox t' = outbox t ++ extra ->
  Forall (fun m => isKey m = true) extra ->
  (isComplete t = true -> extra = []) ->
  isComplete t' = isComplete t -> isActive t' = isActive t ->
  keysThenEnd base t -> keysThenEnd base t'.
Proof.
  intros Ho Hk Hdone Hc Ha [[keys [tail [E [K T]]]] I]. split.
  - destruct T as [T | [T C]].
    + subst tail. exists (keys ++ extra), []. rewrite Ho, E.
      rewrite !app_nil_r, app_assoc. repeat split.
      * apply Forall_app. split; assumption.
      * left. reflexivity.
    + rewrite (Hdone C), app_nil_r in Ho.
      exists keys, tail. rewrite Ho, Hc. repeat split; auto.
  - rewrite Hc, Ha. exact I.
Qed.

Lemma sendKey_keeps (base : list Message) (event_type key : string) (now : Q)
    (t : Timer) :
  keysThenEnd base t ->
  exists t' : Timer,
    sendKey event_type key now t = inr t' /\ keysThenEnd base t'.
Proof.
  intro Inv.
  destruct (sendKey_spec event_type key now t) as [t' [E [_ [Ha [Hc [_ Ho]]]]]].
  exists t'. split; [ exact E |].
  apply (keysThenEnd_keys base _ t t' Ho); try assumption.
  - destruct (isComplete t); simpl; [ constructor |].
    destruct (wsRef t) as [ws |]; [ destruct (isOpen ws) |];
      repeat constructor.
  - intro C. rewrite C. reflexivity.
Qed.

Lemma dispatch_keeps (base : list Message) (e : Event) (c : Component) :
  keysThenEnd base (timer c) ->
  exists c' : Component,
    dispatch e c = inr c' /\ keysThenEnd base (timer c').
Proof.
  intro Inv. destruct e as [value | key now | key now | | rs]; simpl.
  - destruct (isComplete (timer c)) eqn:C.
    + exists c. split; [ reflexivity | exact Inv ].
    + eexists. split; [ reflexivity |]. simpl.
      destruct (activate_spec value (timer c)) as [Ho [Hc [_ Ha]]].
      apply (keysThenEnd_same base (timer c)); assumption.
  - unfold handleKeyDown.
    destruct (sendKey_keeps base "press" key now (timer c) Inv) as [t' [E Inv']].
    rewrite E. eexists. split; [ reflexivity | exact Inv' ].
  - unfold handleKeyUp.
    destruct (sendKey_keeps base "release" key now (timer c) Inv) as [t' [E Inv']].
    rewrite E. eexists. split; [ reflexivity | exact Inv' ].
  - unfold second.
    destruct (isActive (timer c) && (0 <? timeLeft (timer c))%Z) eqn:G;
      [| exists c; split; [ reflexivity | exact Inv ] ].
    apply andb_true_iff in G. destruct G as [A P].
    destruct (Z_le_gt_dec (timeLeft (timer c)) 1) as [Hexp | Hrun].
    + destruct (tick_expiry (timer c) Hexp) as [t' [E [_ [A' [C' O']]]]].
      rewrite E. eexists. split; [ reflexivity |]. simpl.
      destruct (activate_spec (input c) t') as [Ho [Hc [_ Ha]]].
      apply (keysThenEnd_same base t'); try assumption.
      destruct Inv as [[keys [tail [Eo [K T]]]] I]. split.
      * destruct T as [T | [_ T]];
          [| rewrite (I T) in A; discriminate ].
        subst tail. rewrite app_nil_r in Eo.
        exists keys, (endIfOpen (timer c)). rewrite O', Eo.
        split; [ rewrite <- app_assoc; reflexivity |].
        split; [ exact K |].
        unfold endIfOpen. destruct (wsRef (timer c)) as [ws |];
          [ destruct (isOpen ws) |]; auto.
      * intros _. exact A'.
    + rewrite tick_running by lia.
      eexists. split; [ reflexivity |]. simpl.
      match goal with
      | |- keysThenEnd _ (activate _ ?t) =>
          destruct (activate_spec (input c) t) as [Ho [Hc [_ Ha]]];
          apply (keysThenEnd_same base t); try assumption
      end.
  - eexists. split; [ reflexivity |]. simpl.
    apply (keysThenEnd_same base (timer c)); auto.
    unfold outbox. simpl. destruct (wsRef (timer c)); reflexivity.
Qed.

Lemma run_keeps (base : list Message) (events : list Event) :
  forall c : Component,
    keysThenEnd base (timer c) ->
    exists c' : Component,
      run events c = inr c' /\ keysThenEnd base (timer c').
Proof.
  induction events as [| e rest IH]; intros c Inv; simpl.
  - exists c. split; [ reflexivity | exact Inv ].
  - destruct (dispatch_keeps base e c Inv) as [c1 [E Inv1]]. rewrite E.
    apply IH, Inv1.
Qed.

(** X6. Whatever the user types, however many seconds pass and however
    the browser moves the socket between its states, the component never
    throws, and what it has handed to the network is a sequence of key
    events followed by at most one [end]: no key event is ever sent after
    the [end] of the timer, and the [end] is sent only with the test
    complete. *)
Theorem no_key_after_end (events : list Event) (ws : WebSocket) :
  exists c' : Component,
    run events (mounted ws) = inr c' /\
    exists keys tail : list Message,
      outbox (timer c') = sent ws ++ keys ++ tail /\
      Forall (fun m => isKey m = true) keys /\
      (tail = [] \/ (tail = [EndSignal] /\ isComplete (timer c') = true)).
Proof.
  destruct (run_keeps (sent ws) events (mounted ws)) as [c' [E [Inv _]]].
  - split.
    + exists [], []. simpl. rewrite app_nil_r. repeat split; auto.
    + simpl. discriminate.
  - exists c'. split; [ exact E | exact Inv ].
Qed.

End SessionFacts.

(** ** The typing test: speed, word colours and the ends of the accuracy scale *)

Section MetricsFacts.

Import TypingTest TypingSession.

Lemma split_length (sep : ascii) (s : string) :
  List.length (split sep s) =
  S (List.length (filter (Ascii.eqb sep) (list_ascii_of_string s))).
Proof.
  induction s as [| c rest IH]; [ reflexivity |].
  simpl. destruct (split sep rest) as [| w ws] eqn:E.
  - exfalso. exact (split_not_nil _ _ E).
  - rewrite (Ascii.eqb_sym sep c).
    destruct (Ascii.eqb c sep); simpl in *; lia.
Qed.

Lemma floor_half_up (z : Z) (q : Q) :
  inject_Z z <= q -> (z <= Qfloor (q + (1 # 2)))%Z.
Proof.
  intro H. rewrite <- (Qfloor_Z z). apply Qfloor_resp_le. lra.
Qed.

Lemma floor_half_down (z : Z) (q : Q) :
  q <= inject_Z z -> (Qfloor (q + (1 # 2)) <= z)%Z.
Proof.
  intro H.
  assert (Hlt : inject_Z (Qfloor (q + (1 # 2))) < inject_Z (z + 1)).
  { apply Qle_lt_trans with (q + (1 # 2)); [ apply Qfloor_le |].
    rewrite inject_Z_plus. change (inject_Z 1) with 1. lra. }
  rewrite <- Zlt_Qlt in Hlt. lia.
Qed.

(** X7. The speed is left alone until a second has gone by (time left 30
    or more).  From then on it is a whole number computed from the number of
    typed words, which is one more than the number of spaces of the trimmed
    input and so never 0: with [w] words the speed lies between [2 w] and
    [60 w], already at least 2 for an empty text area. *)
Theorem wpm_bounds (input : string) (time : Z) (wpm : Q) :
  let w := List.length (typedWords input) in
  w = S (List.length (filter (Ascii.eqb " ")
                        (list_ascii_of_string (trim input)))) /\
  ((30 <= time)%Z -> updateWpm input time wpm = wpm) /\
  ((0 <= time < 30)%Z ->
   exists k : Z,
     updateWpm input time wpm == inject_Z k /\
     (2 * Z.of_nat w <= k <= 60 * Z.of_nat w)%Z).
Proof.
  intro w. split; [ apply split_length |]. unfold updateWpm. split.
  - intro H.
    assert (E : JS.lt 0 ((30 - inject_Z time) / 60) = false).
    { apply lt_false_iff.
      assert (inject_Z time >= 30).
      { change 30 with (inject_Z 30). rewrite <- Zle_Qle. exact H. }
      apply Qle_shift_div_r; lra. }
    rewrite E. reflexivity.
  - intros [H0 H30].
    assert (Ht0 : 0 <= inject_Z time).
    { change 0 with (inject_Z 0). rewrite <- Zle_Qle. exact H0. }
    assert (Ht1 : inject_Z time <= 29).
    { change 29 with (inject_Z 29). rewrite <- Zle_Qle. lia. }
    set (e := (30 - inject_Z time) / 60).
    assert (He : e * 60 == 30 - inject_Z time) by (unfold e; field).
    assert (Hepos : 0 < e) by lra.
    assert (E : JS.lt 0 e = true) by (apply lt_true_iff; exact Hepos).
    rewrite E. cbv zeta. unfold JS.Math_round, JS.length_of. fold w.
    set (n := inject_Z (Z.of_nat w)).
    assert (Hn : 0 <= n).
    { unfold n. change 0 with (inject_Z 0). rewrite <- Zle_Qle. lia. }
    assert (Hlow : inject_Z (2 * Z.of_nat w) <= n / e).
    { rewrite inject_Z_mult. fold n. change (inject_Z 2) with 2.
      apply Qle_shift_div_l; [ exact Hepos |]. nra. }
    assert (Hhigh : n / e <= inject_Z (60 * Z.of_nat w)).
    { rewrite inject_Z_mult. fold n. change (inject_Z 60) with 60.
      apply Qle_shift_div_r; [ exact Hepos |]. nra. }
    eexists. split; [ reflexivity |]. split.
    + apply floor_half_up. exact Hlow.
    + apply floor_half_down. exact Hhigh.
Qed.

Lemma wpm_bounds_witness :
  (0 <= 29 < 30)%Z /\
  exists k : Z, updateWpm "" 29 0 == inject_Z k /\ (2 <= k)%Z.
Proof.
  assert (H : (0 <= 29 < 30)%Z) by lia.
  split; [ exact H |].
  destruct (proj2 (proj2 (wpm_bounds "" 29 0)) H) as [k [E [L _]]].
  exists k. split; [ exact E | exact L ].
Defined.

(** X8. The first word of the sample is never the underlined current
    word and never greyed out: it is shown as correct or as an error from the
    start, also before anything is typed.  The underlined word is the one
    whose index is the number of typed words, and a word is shown as correct
    exactly when it has been reached and equals the reference word. *)
Theorem word_classes (input : string) :
  (getWordClass input 0 = "text-primary"%string \/
   getWordClass input 0 = "text-destructive"%string) /\
  (forall index : nat,
     getWordClass input index = "text-foreground underline"%string <->
     index = List.length (typedWords input)) /\
  (forall index : nat,
     getWordClass input index = "text-primary"%string <->
     exists w : string,
       nth_error (typedWords input) index = Some w /\
       nth_error words index = Some w).
Proof.
  unfold getWordClass.
  assert (Hlen : (0 < List.length (typedWords input))%nat).
  { unfold typedWords. rewrite split_length. lia. }
  split; [| split ].
  - apply Nat.ltb_lt in Hlen. rewrite Hlen.
    destruct (sameWord _ _); [ left | right ]; reflexivity.
  - intro index. destruct (index <? _)%nat eqn:L.
    + apply Nat.ltb_lt in L.
      destruct (sameWord _ _); split; try discriminate; intro; lia.
    + destruct (index =? _)%nat eqn:E.
      * apply Nat.eqb_eq in E. split; auto.
      * apply Nat.eqb_neq in E. split; [ discriminate | contradiction ].
  - intro index. destruct (index <? _)%nat eqn:L.
    + destruct (nth_error (typedWords input) index) as [a |] eqn:Ea;
        destruct (nth_error words index) as [b |] eqn:Eb; simpl.
      * destruct (String.eqb_spec a b) as [Eab | Nab].
        -- subst b. split; [ intros _; exists a; auto | reflexivity ].
        -- split; [ discriminate |].
           intros [w [H1 H2]]. congruence.
      * split; [ discriminate | intros [w [_ H]]; discriminate ].
      * split; [ discriminate | intros [w [H _]]; discriminate ].
      * apply Nat.ltb_lt in L. apply nth_error_None in Ea. lia.
    + apply Nat.ltb_ge in L.
      assert (Hn : nth_error (typedWords input) index = None)
        by (apply nth_error_None; exact L).
      destruct (index =? _)%nat; (split; [ discriminate |]);
        intros [w [H _]]; congruence.
Qed.


Lemma trimStart_white (s : string) :
  forallb isWhiteSpace (list_ascii_of_string s) = true ->
  trimStart s = EmptyString.
Proof.
  induction s as [| c rest IH]; simpl; [ reflexivity |].
  intro H. apply andb_true_iff in H. destruct H as [Hc Hrest].
  rewrite Hc. exact (IH Hrest).
Qed.

(** X9. While the text area holds nothing but white space (or nothing at
    all), the effect sets the accuracy to 0: the first reference word counts
    as covered and none of its characters as correct.  The initial 100 is
    therefore replaced as soon as the component has mounted. *)
Theorem blank_input_accuracy (input : string) (accuracy : Q) :
  forallb isWhiteSpace (list_ascii_of_string input) = true ->
  typedWords input = [EmptyString] /\
  totalChars (countChars words (typedWords input)) = 3%nat /\
  metricsEffect input accuracy = 0.
Proof.
  intro H. unfold metricsEffect, typedWords, trim.
  rewrite (trimStart_white input H). repeat split.
Qed.

Lemma blank_input_accuracy_witness :
  forallb isWhiteSpace (list_ascii_of_string "  ") = true /\
  metricsEffect "  " initialAccuracy = 0.
Proof.
  assert (H : forallb isWhiteSpace (list_ascii_of_string "  ") = true)
    by reflexivity.
  split; [ exact H |].
  exact (proj2 (proj2 (blank_input_accuracy "  " initialAccuracy H))).
Defined.

Lemma matchingIndices_self (w : string) :
  List.length (matchingIndices w w) = String.length w.
Proof.
  unfold matchingIndices.
  rewrite <- (length_seq (String.length w) 0) at 2. f_equal.
  apply forallb_filter_id. apply forallb_forall. intros j Hj.
  apply in_seq in Hj. destruct Hj as [_ Hj]. simpl in Hj.
  destruct (get_lt_some w j Hj) as [c Hc]. rewrite Hc. simpl.
  apply Ascii.eqb_refl.
Qed.

(** Typing the reference words from index [i] on, one for one, adds the
    same amount to both counters. *)
Lemma countFrom_exact (reference : list string) (k : nat) :
  forallb truthy reference = true ->
  forall (i : nat) (c : Counters),
    (correctChars c <= totalChars c)%nat ->
    let c' := countFrom reference i (firstn k (skipn i reference)) c in
    (totalChars c' - correctChars c' = totalChars c - correctChars c)%nat /\
    (correctChars c' <= totalChars c')%nat.
Proof.
  intro Hall. induction k as [| k IH]; intros i c Hc; simpl.
  - split; [ reflexivity | exact Hc ].
  - destruct (skipn i reference) as [| w rest] eqn:E; simpl.
    + split; [ reflexivity | exact Hc ].
    + assert (Hnth : nth_error reference i = Some w).
      { rewrite <- (firstn_skipn i reference) at 1.
        assert (Hi : (i <= List.length reference)%nat).
        { destruct (Nat.le_gt_cases i (List.length reference)) as [L | G];
            [ exact L |].
          rewrite skipn_all2 in E by lia. discriminate. }
        rewrite nth_error_app2; rewrite length_firstn, Nat.min_l by exact Hi;
          [| lia ].
        rewrite Nat.sub_diag, E. reflexivity. }
      assert (Hrest : skipn (S i) reference = rest).
      { replace (S i) with (1 + i)%nat by lia.
        rewrite <- skipn_skipn, E. reflexivity. }
      assert (Hw : truthy w = true).
      { rewrite forallb_forall in Hall. apply Hall.
        apply nth_error_In with i. exact Hnth. }
      rewrite <- Hrest.
      assert (Hstep : countWord reference i w c =
                {| correctChars := correctChars c + String.length w;
                   totalChars := totalChars c + String.length w |}).
      { unfold countWord. rewrite Hnth, Hw, matchingIndices_self. reflexivity. }
      rewrite Hstep.
      destruct (IH (S i) {| correctChars := correctChars c + String.length w;
                            totalChars := totalChars c + String.length w |})
        as [H1 H2]; [ simpl; lia |].
      cbv zeta in H1, H2. cbn [totalChars correctChars] in H1.
      split; [ lia | exact H2 ].
Qed.

(** X10. Typing the sample text word for word, up to the end of any word,
    gives an accuracy of exactly 100. *)
Theorem exact_words_accuracy (input : string) (k : nat) (accuracy : Q) :
  (1 <= k)%nat ->
  typedWords input = firstn k words ->
  correctChars (countChars words (typedWords input)) =
    totalChars (countChars words (typedWords input)) /\
  metricsEffect input accuracy == 100.
Proof.
  intros Hk Htyped.
  assert (Hall : forallb truthy words = true) by (vm_compute; reflexivity).
  destruct (countFrom_exact words k Hall 0
              {| correctChars := 0; totalChars := 0 |}) as [H1 H2];
    [ simpl; lia |].
  cbv zeta in H1, H2. change (skipn 0 words) with words in H1, H2.
  cbn [totalChars correctChars] in H1.
  pose proof (sample_total_pos input) as Hpos.
  unfold metricsEffect, updateAccuracy.
  rewrite Htyped in *. unfold countChars in *.
  set (c := countFrom words 0 (firstn k words)
              {| correctChars := 0; totalChars := 0 |}) in *.
  assert (Heq : correctChars c = totalChars c) by lia.
  split; [ exact Heq |].
  apply Nat.ltb_lt in Hpos. rewrite Hpos. unfold ratio. rewrite Heq.
  apply Nat.ltb_lt in Hpos.
  assert (Ht : 0 < inject_Z (Z.of_nat (totalChars c))).
  { change 0 with (inject_Z 0). rewrite <- Zlt_Qlt. lia. }
  assert (E : inject_Z (Z.of_nat (totalChars c)) /
              inject_Z (Z.of_nat (totalChars c)) * 100 == 100).
  { field. lra. }
  unfold JS.Math_round. rewrite E. reflexivity.
Qed.

Lemma exact_words_accuracy_witness :
  typedWords "The early morning" = firstn 3 words /\
  metricsEffect "The early morning" initialAccuracy == 100.
Proof.
  assert (H : typedWords "The early morning" = firstn 3 words)
    by (vm_compute; reflexivity).
  split; [ exact H |].
  assert (Hk : (1 <= 3)%nat) by lia.
  exact (proj2 (exact_words_accuracy "The early morning" 3 initialAccuracy Hk H)).
Defined.

End MetricsFacts.

(** ** The colours and the advice of the results page *)

Section ViewFacts.

Import ResultsPage ResultsView.

Lemma categoryOf_cases (r : Q) :
  (r < 3 # 10 /\ categoryOf r = "low"%string) \/
  (3 # 10 <= r /\ r < 5 # 10 /\ categoryOf r = "moderate"%string) \/
  (5 # 10 <= r /\ r < 7 # 10 /\ categoryOf r = "elevated"%string) \/
  (7 # 10 <= r /\ categoryOf r = "high"%string).
Proof.
  unfold categoryOf.
  destruct (JS.lt r (3 # 10)) eqn:H3;
    [ apply lt_true_iff in H3; left; split; [ exact H3 | reflexivity ] |].
  apply lt_false_iff in H3. right.
  destruct (JS.lt r (5 # 10)) eqn:H5;
    [ apply lt_true_iff in H5; left; repeat split; assumption |].
  apply lt_false_iff in H5. right.
  destruct (JS.lt r (7 # 10)) eqn:H7;
    [ apply lt_true_iff in H7; left; repeat split; assumption |].
  apply lt_false_iff in H7. right. split; [ exact H7 | reflexivity ].
Qed.

(** X11. The colour of the overall score follows the fused risk: grey
    with the grey background exactly when neither typing nor voice reported
    a score, otherwise green below 0.3, yellow from 0.3, orange from 0.5 and
    red from 0.7, text and background always in the same colour. *)
Theorem colour_of_fused_risk (typing : option TypingResults)
    (voice : option VoiceResults) :
  let st := calculateOverallRisk typing voice initialState in
  let colours := (getRiskColor (riskCategory st), getRiskBgColor (riskCategory st)) in
  (Normalizer.reportedScores typing voice = [] ->
   colours = ("text-muted-foreground", "bg-muted")%string) /\
  (Normalizer.reportedScores typing voice <> [] ->
   (overallRisk st < 3 # 10 /\
    colours = ("text-green-500", "bg-green-500/10")%string) \/
   (3 # 10 <= overallRisk st /\ overallRisk st < 5 # 10 /\
    colours = ("text-yellow-500", "bg-yellow-500/10")%string) \/
   (5 # 10 <= overallRisk st /\ overallRisk st < 7 # 10 /\
    colours = ("text-orange-500", "bg-orange-500/10")%string) \/
   (7 # 10 <= overallRisk st /\
    colours = ("text-red-500", "bg-red-500/10")%string)).
Proof.
  intros st colours. subst colours st. unfold calculateOverallRisk.
  rewrite collectRisks_values.
  destruct (Normalizer.reportedScores typing voice) as [| s rest]; split.
  - reflexivity.
  - intro H. contradiction.
  - discriminate.
  - intros _. simpl map. simpl fuseRisks. cbv beta zeta.
    cbn [overallRisk riskCategory].
    destruct (categoryOf_cases
                (JS.sum (Normalizer.value s :: map Normalizer.value rest) /
                 JS.length_of (Normalizer.value s :: map Normalizer.value rest)))
      as [[H E] | [[H1 [H2 E]] | [[H1 [H2 E]] | [H E]]]]; rewrite E.
    + left. split; [ exact H | reflexivity ].
    + right. left. repeat split; assumption.
    + right. right. left. repeat split; assumption.
    + right. right. right. split; [ exact H | reflexivity ].
Qed.

Lemma colour_of_fused_risk_witness :
  Normalizer.reportedScores None (Samples.voiceWith (8 # 10) 1) <> [] /\
  getRiskColor
    (riskCategory
       (calculateOverallRisk None (Samples.voiceWith (8 # 10) 1) initialState))
  = "text-red-500"%string.
Proof.
  assert (H : Normalizer.reportedScores None (Samples.voiceWith (8 # 10) 1) <> [])
    by discriminate.
  split; [ exact H |].
  destruct (proj2 (colour_of_fused_risk None (Samples.voiceWith (8 # 10) 1)) H)
    as [[K _] | [[_ [K _]] | [[_ [K _]] | [_ E]]]].
  - exfalso. vm_compute in K. discriminate K.
  - exfalso. vm_compute in K. discriminate K.
  - exfalso. vm_compute in K. discriminate K.
  - exact (f_equal fst E).
Defined.

(** X12. The page gives advice exactly when a score was fused: with a
    typing or voice score reported the recommendations card is rendered with
    two or three items; with none reported the card is absent, or rendered
    empty (a typing result without a score, or a voice answer without a risk
    score, is stored).  The bands moderate and elevated share their advice. *)
Theorem advice_needs_a_score (typing : option TypingResults)
    (voice : option VoiceResults) :
  (Normalizer.reportedScores typing voice <> [] ->
   exists items : list string,
     recommendationCard typing voice = Some items /\
     (List.length items = 2 \/ List.length items = 3)%nat) /\
  (Normalizer.reportedScores typing voice = [] ->
   recommendationCard typing voice = None \/
   recommendationCard typing voice = Some []) /\
  recommendations "moderate" = recommendations "elevated".
Proof.
  split; [| split; [| reflexivity ] ].
  - intro Hne.
    assert (Hcard : recommendationCard typing voice =
              Some (recommendations
                      (riskCategory
                         (calculateOverallRisk typing voice initialState)))).
    { unfold recommendationCard. revert Hne.
      unfold Normalizer.reportedScores, typingScore.
      destruct typing as [t |]; [ reflexivity |].
      destruct (voiceRawResponse voice) as [[| parsed] |];
        simpl; try reflexivity; intro H; contradiction. }
    rewrite Hcard. eexists. split; [ reflexivity |].
    unfold calculateOverallRisk. rewrite collectRisks_values.
    destruct (Normalizer.reportedScores typing voice) as [| s rest];
      [ contradiction |].
    simpl map. simpl fuseRisks. cbv beta zeta. cbn [riskCategory].
    destruct (categoryOf_cases
                (JS.sum (Normalizer.value s :: map Normalizer.value rest) /
                 JS.length_of (Normalizer.value s :: map Normalizer.value rest)))
      as [[_ E] | [[_ [_ E]] | [[_ [_ E]] | [_ E]]]]; rewrite E; simpl; auto.
  - intro Hnone. unfold recommendationCard, calculateOverallRisk.
    rewrite collectRisks_values, Hnone. simpl.
    destruct typing; destruct (voiceRawResponse voice) as [[| parsed] |]; auto.
Qed.

Lemma advice_needs_a_score_witness :
  Normalizer.reportedScores (Samples.typingWith (1 # 4)) None <> [] /\
  exists items : list string,
    recommendationCard (Samples.typingWith (1 # 4)) None = Some items /\
    (List.length items = 2 \/ List.length items = 3)%nat.
Proof.
  assert (H : Normalizer.reportedScores (Samples.typingWith (1 # 4)) None <> [])
    by discriminate.
  split; [ exact H |].
  exact (proj1 (advice_needs_a_score (Samples.typingWith (1 # 4)) None) H).
Defined.

End ViewFacts.

(** ** The blink tracker over whole streams *)

Section StreamFacts.

Import BlinkTracker BlinkFrames.

(** X13. A counted blink costs at least [CONSEC_FRAMES + 1] frames: after
    any stream of processed frames, [CONSEC_FRAMES + 1] times the blink
    count plus the frames of the closing run in progress is at most the
    number of frames. *)
Theorem blink_count_bound (t0 : Q) (samples : list Sample) :
  let tr := process (startTracking t0) samples in
  ((CONSEC_FRAMES + 1) * blinkCount (blinkDataRef tr)
   + consecutiveClosedFramesRef tr <= List.length samples)%nat.
Proof.
  induction samples as [| s pre IH] using rev_ind.
  - simpl. lia.
  - cbv zeta in *. rewrite process_snoc, step_counter, step_log, length_app.
    simpl List.length.
    destruct (JS.lt (fst s) EAR_THRESHOLD).
    + simpl. simpl in IH. lia.
    + destruct (CONSEC_FRAMES <=? _)%nat eqn:R.
      * apply Nat.leb_le in R. unfold CONSEC_FRAMES in *. simpl. simpl in IH.
        lia.
      * simpl. simpl in IH. lia.
Qed.

Lemma sorted_snoc (l : list Q) (a : Q) :
  StronglySorted Qle l -> Forall (fun b => b <= a) l ->
  StronglySorted Qle (l ++ [a]).
Proof.
  induction 1 as [| b l Hs IH Hb]; intro Hall; simpl.
  - repeat constructor.
  - inversion Hall as [| ? ? Hba Hall']; subst.
    constructor; [ apply IH, Hall' |].
    apply Forall_app. split; [ exact Hb | repeat constructor; exact Hba ].
Qed.

Lemma sorted_snoc_inv (l : list Q) (a : Q) :
  StronglySorted Qle (l ++ [a]) ->
  StronglySorted Qle l /\ Forall (fun b => b <= a) l.
Proof.
  induction l as [| b l IH]; simpl; intro H.
  - split; constructor.
  - inversion H as [| ? ? Hs Hb]; subst.
    destruct (IH Hs) as [H1 H2]. apply Forall_app in Hb.
    destruct Hb as [Hb1 Hb2]. inversion Hb2; subst.
    split; constructor; assumption.
Qed.

Lemma log_of_stream (t0 : Q) (samples : list Sample) :
  let data := blinkDataRef (process (startTracking t0) samples) in
  earValues data = map fst samples /\
  (forall ts : Q,
     In ts (blinkTimestamps data) ->
     exists s : Sample,
       In s samples /\ snd s = ts /\ EAR_THRESHOLD <= fst s) /\
  (StronglySorted Qle (map snd samples) ->
   StronglySorted Qle (blinkTimestamps data)).
Proof.
  induction samples as [| s pre IH] using rev_ind.
  - simpl. repeat split; try constructor. intros ts [].
  - cbv zeta in *. destruct IH as [He [Hin Hsorted]].
    rewrite process_snoc, step_log, !map_app. simpl map.
    assert (Hpre : forall ts : Q,
              In ts (blinkTimestamps
                       (blinkDataRef (process (startTracking t0) pre))) ->
              exists s0 : Sample,
                In s0 (pre ++ [s]) /\ snd s0 = ts /\ EAR_THRESHOLD <= fst s0).
    { intros ts H. destruct (Hin ts H) as [s0 [H1 H2]].
      exists s0. split; [ apply in_or_app; left; exact H1 | exact H2 ]. }
    destruct (JS.lt (fst s) EAR_THRESHOLD) eqn:L.
    + simpl. rewrite He. repeat split; try assumption.
      intro Hs. apply sorted_snoc_inv in Hs. apply Hsorted, Hs.
    + apply lt_false_iff in L.
      destruct (CONSEC_FRAMES <=? _)%nat; simpl; rewrite He;
        repeat split; try assumption.
      * intros ts H. apply in_app_or in H. destruct H as [H | [H | []]].
        -- apply Hpre, H.
        -- exists s. split; [ apply in_or_app; right; left; reflexivity |].
           split; [ exact H | exact L ].
      * intro Hs. apply sorted_snoc_inv in Hs. destruct Hs as [Hs Hall].
        apply sorted_snoc; [ apply Hsorted, Hs |].
        apply Forall_forall. intros ts H.
        destruct (Hin ts H) as [s0 [H1 [H2 _]]]. subst ts.
        rewrite Forall_forall in Hall. apply Hall.
        apply in_map. exact H1.
      * intro Hs. apply sorted_snoc_inv in Hs. apply Hsorted, Hs.
Qed.

(** X14. The session log is a faithful record of the stream: the EAR
    values are the samples in arrival order, there is one timestamp per
    counted blink, every blink timestamp is the clock reading of a frame at
    or above the threshold, and the timestamps are in non-decreasing order
    whenever the clock readings are. *)
Theorem session_log (t0 : Q) (samples : list Sample) :
  let data := blinkDataRef (process (startTracking t0) samples) in
  earValues data = map fst samples /\
  blinkCount data = List.length (blinkTimestamps data) /\
  (forall ts : Q,
     In ts (blinkTimestamps data) ->
     exists s : Sample,
       In s samples /\ snd s = ts /\ EAR_THRESHOLD <= fst s) /\
  (StronglySorted Qle (map snd samples) ->
   StronglySorted Qle (blinkTimestamps data)).
Proof.
  intro data.
  destruct (log_of_stream t0 samples) as [H1 [H2 H3]].
  destruct (log_consistent t0 samples) as [H4 _].
  split; [ exact H1 | split; [ exact H4 | split; [ exact H2 | exact H3 ] ] ].
Qed.

Lemma session_log_witness :
  StronglySorted Qle (map snd [(1 # 10, 1); (1 # 10, 2); (3 # 10, 3)]) /\
  StronglySorted Qle
    (blinkTimestamps
       (blinkDataRef
          (process (startTracking 0) [(1 # 10, 1); (1 # 10, 2); (3 # 10, 3)]))).
Proof.
  assert (H : StronglySorted Qle
                (map snd [(1 # 10, 1); (1 # 10, 2); (3 # 10, 3)])).
  { simpl. repeat constructor; apply Qle_bool_iff; reflexivity. }
  split; [ exact H |].
  exact (proj2 (proj2 (proj2
           (session_log 0 [(1 # 10, 1); (1 # 10, 2); (3 # 10, 3)]))) H).
Defined.

Lemma feed_sample (tr : Tracker) (f : Frame) :
  feed tr f =
  match sampleOf f with
  | Some s => step tr s
  | None => tr
  end.
Proof.
  unfold feed, sampleOf, step, onResults. simpl.
  destruct (multiFaceLandmarks (fst f)) as [[| e faces] |]; reflexivity.
Qed.

Lemma feedAll_samples (frames : list Frame) :
  forall tr : Tracker, feedAll tr frames = process tr (samplesOf frames).
Proof.
  unfold feedAll, process.
  induction frames as [| f rest IH]; intro tr; simpl; [ reflexivity |].
  rewrite feed_sample. destruct (sampleOf f) as [s |]; simpl; apply IH.
Qed.

Lemma samplesOf_app (a b : list Frame) :
  samplesOf (a ++ b) = samplesOf a ++ samplesOf b.
Proof.
  induction a as [| f a IH]; simpl; [ reflexivity |].
  destruct (sampleOf f); simpl; rewrite IH; reflexivity.
Qed.

(** X15. Frames without a face are invisible to the tracker: a stream of
    raw frames leaves it in the state that the frames with a face alone
    would, so a faceless frame in the middle of a closing run neither breaks
    the run nor counts towards it; of several faces only the first is
    read. *)
Theorem faceless_frames_skipped (tr : Tracker) (frames : list Frame) :
  feedAll tr frames = process tr (samplesOf frames) /\
  (forall (before after : list Frame) (f : Frame),
     frames = before ++ f :: after ->
     multiFaceLandmarks (fst f) = None \/ multiFaceLandmarks (fst f) = Some [] ->
     feedAll tr frames = feedAll tr (before ++ after)) /\
  (forall (f : Frame) (e : Q) (others : list Q),
     multiFaceLandmarks (fst f) = Some (e :: others) ->
     feed tr f = step tr (e, snd f)).
Proof.
  split; [ apply feedAll_samples | split ].
  - intros before after f E Hno. subst frames.
    rewrite !feedAll_samples, !samplesOf_app. simpl.
    assert (Hs : sampleOf f = None).
    { unfold sampleOf. destruct Hno as [H | H]; rewrite H; reflexivity. }
    rewrite Hs. reflexivity.
  - intros f e others H. rewrite feed_sample. unfold sampleOf. rewrite H.
    reflexivity.
Qed.

Lemma faceless_frames_skipped_witness :
  let closed := ({| multiFaceLandmarks := Some [1 # 10] |}, 1) in
  let noFace := ({| multiFaceLandmarks := None |}, 2) in
  let open := ({| multiFaceLandmarks := Some [3 # 10] |}, 3) in
  blinkCount
    (blinkDataRef
       (feedAll (startTracking 0) [closed; noFace; closed; open])) = 1%nat.
Proof.
  intros closed noFace open.
  rewrite (proj1 (proj2 (faceless_frames_skipped (startTracking 0)
                           [closed; noFace; closed; open]))
             [closed] [closed; open] noFace eq_refl (or_introl eq_refl)).
  reflexivity.
Defined.

Lemma calculateEAR_missing (Math_sqrt : Q -> Q) (landmarks : list Point)
    (i0 i1 i2 i3 i4 i5 : nat) :
  In None (getEyeLandmarks landmarks [i0; i1; i2; i3; i4; i5]) ->
  calculateEAR Math_sqrt (getEyeLandmarks landmarks [i0; i1; i2; i3; i4; i5]) = 1.
Proof.
  unfold calculateEAR, getEyeLandmarks, at_, euclideanDistance. simpl.
  destruct (nth_error landmarks i0), (nth_error landmarks i1),
    (nth_error landmarks i2), (nth_error landmarks i3),
    (nth_error landmarks i4), (nth_error landmarks i5);
    intro H; try reflexivity;
    repeat (destruct H as [H | H]; [ discriminate H |]); destruct H.
Qed.

(** X16. The eye geometry never faults on a short landmark list: when the
    list does not reach the indices of an eye, the ratio of that eye falls
    back to 1.0 whatever the other points are, and when neither eye is
    reached the frame is handled as an open eye (average 1.0, not below the
    threshold) rather than skipped. *)
Theorem short_landmarks_read_open (Math_sqrt : Q -> Q) (landmarks : list Point) :
  ((List.length landmarks <= 387)%nat ->
   calculateEAR Math_sqrt (getEyeLandmarks landmarks LEFT_EYE) = 1) /\
  ((List.length landmarks <= 160)%nat ->
   calculateEAR Math_sqrt (getEyeLandmarks landmarks RIGHT_EYE) = 1 /\
   averageEAR Math_sqrt landmarks == 1 /\
   JS.lt (averageEAR Math_sqrt landmarks) EAR_THRESHOLD = false) /\
  (forall eye : list (option Point),
     (List.length eye < 6)%nat -> calculateEAR Math_sqrt eye = 1).
Proof.
  assert (Hleft : (List.length landmarks <= 387)%nat ->
                  calculateEAR Math_sqrt (getEyeLandmarks landmarks LEFT_EYE) = 1).
  { intro H. apply calculateEAR_missing. unfold getEyeLandmarks.
    right. right. left. apply nth_error_None. exact H. }
  assert (Hright : (List.length landmarks <= 160)%nat ->
                   calculateEAR Math_sqrt (getEyeLandmarks landmarks RIGHT_EYE) = 1).
  { intro H. apply calculateEAR_missing. unfold getEyeLandmarks.
    right. left. apply nth_error_None. exact H. }
  split; [ exact Hleft | split ].
  - intro H. split; [ exact (Hright H) |].
    assert (Ha : averageEAR Math_sqrt landmarks == 1).
    { unfold averageEAR. rewrite Hleft by lia. rewrite (Hright H). reflexivity. }
    split; [ exact Ha |].
    rewrite (lt_compat _ 1 _ Ha). reflexivity.
  - intros eye H. unfold calculateEAR. apply Nat.ltb_lt in H. rewrite H.
    reflexivity.
Qed.

Lemma short_landmarks_read_open_witness :
  (List.length [{| x := 1; y := 2 |}] <= 160)%nat /\
  averageEAR (fun q => q) [{| x := 1; y := 2 |}] == 1.
Proof.
  assert (H : (List.length [{| x := 1; y := 2 |}] <= 160)%nat) by (simpl; lia).
  split; [ exact H |].
  exact (proj1 (proj2 (proj1 (proj2
           (short_landmarks_read_open (fun q => q) [{| x := 1; y := 2 |}])) H))).
Defined.

End StreamFacts.

(** ** The voice test clock and the two end signals *)

Section ClockFacts.

Import TypingTest VoiceRecorder.

Lemma recordingAfter_value (n : nat) :
  fst (recordingAfter n 0) = Z.min (Z.of_nat n) 5.
Proof.
  induction n as [| n IH]; [ reflexivity |].
  simpl recordingAfter. unfold recordingTick. rewrite IH.
  destruct (5 <=? Z.min (Z.of_nat n) 5)%Z eqn:E; simpl.
  - apply Z.leb_le in E. lia.
  - apply Z.leb_gt in E. lia.
Qed.

(** X17. The recording clock of the voice test counts the seconds up to 5
    and stays there, and the tick that first calls [stopRecording] is the
    sixth, not the fifth: the automatic stop is requested only once six
    seconds have been recorded. *)
Theorem recording_stops_at_sixth_tick (n : nat) :
  fst (recordingAfter n 0) = Z.min (Z.of_nat n) 5 /\
  (snd (recordingAfter n 0) = true <-> (6 <= n)%nat).
Proof.
  split; [ apply recordingAfter_value |].
  destruct n as [| n]; simpl.
  - split; [ discriminate | lia ].
  - unfold recordingTick. rewrite recordingAfter_value.
    destruct (5 <=? Z.min (Z.of_nat n) 5)%Z eqn:E; simpl.
    + apply Z.leb_le in E. split; [ lia | reflexivity ].
    + apply Z.leb_gt in E. split; [ discriminate | lia ].
Qed.

(** X18. The [end] of the timer and the [end] of the unmount do not know
    of each other: when the timer runs out on an open socket and the
    component is unmounted with the socket still open, the server is sent
    [end] twice. *)
Theorem end_sent_twice (st : Timer) (ws : WebSocket) :
  (timeLeft st <= 1)%Z -> wsRef st = Some ws -> isOpen ws = true ->
  exists (st' : Timer) (ws' ws'' : WebSocket),
    tick st = inr st' /\ wsRef st' = Some ws' /\ cleanup ws' = inr ws'' /\
    sent ws'' = sent ws ++ [EndSignal; EndSignal] /\
    countEnd (sent ws'') = (countEnd (sent ws) + 2)%nat.
Proof.
  intros Hexp Hws Hopen. unfold tick. apply Z.leb_le in Hexp.
  rewrite Hexp, Hws, Hopen.
  destruct ws as [rs out]. unfold isOpen in Hopen. simpl in Hopen.
  destruct rs; try discriminate. simpl.
  eexists. eexists. eexists.
  split; [ reflexivity |]. split; [ reflexivity |].
  unfold cleanup. simpl. split; [ reflexivity |]. simpl.
  rewrite <- app_assoc. split; [ reflexivity |].
  rewrite countEnd_app. reflexivity.
Qed.

Lemma end_sent_twice_witness :
  exists (st' : Timer) (ws' ws'' : WebSocket),
    tick {| timeLeft := 1; isActive := true; isComplete := false;
            wsRef := Some {| readyState := OPEN; sent := [] |} |} = inr st' /\
    wsRef st' = Some ws' /\ cleanup ws' = inr ws'' /\
    sent ws'' = [EndSignal; EndSignal].
Proof.
  destruct (end_sent_twice
              {| timeLeft := 1; isActive := true; isComplete := false;
                 wsRef := Some {| readyState := OPEN; sent := [] |} |}
              {| readyState := OPEN; sent := [] |})
    as [st' [ws' [ws'' [H1 [H2 [H3 [H4 _]]]]]]];
    [ simpl; lia | reflexivity | reflexivity |].
  exists st', ws', ws''. repeat split; assumption.
Defined.

End ClockFacts.
